(** * gym-electric-motor: step reference generator and state/action processor

    A shallow embedding of
    - [reference_generators/step_reference_generator.py]
      (class [StepReferenceGenerator]) and
    - [state_action_processors/state_action_processor.py]
      (class [StateActionProcessor]),
    followed by the properties of the two classes.

    Numbers.  The Python code computes with IEEE doubles.  The generator is
    embedded twice.  In [StepReferenceGenerator] every float is an exact
    rational ([Q]) and the two infinite endpoints [np.inf] and [-np.inf] of
    the constructor's defaults are the type [endpoint]: this is the
    idealisation in which the order properties (clipping, clamping, lengths)
    are proved; rounding, NaN and overflow are outside it.  In
    [StepReferenceGenerator64] every float is a binary64 value
    ([PrimFloat.float]) and every operation is the one numpy or Python
    performs, in the order of the code: this is the model for what the
    stored samples are, bit for bit.

    Objects.  The stage is embedded twice as well.  In
    [StateActionProcessor] attribute values are plain values; in
    [SharedAttributes] the action space and the list of state names are
    objects of a store and the stage holds references to them, as the
    Python object does.

    A Python exception is the result [None], or a [Raised] outcome where
    the state left behind matters. *)

From Stdlib Require Import QArith Qround Qminmax Lqa ZArith List Lia.
From Stdlib Require PrimFloat FloatOps SpecFloat Uint63.
From stdpp Require Import base option list strings gmap.

(* ===================================================================== *)
(** * Part I: definitions                                                  *)
(* ===================================================================== *)

(** ** numpy on rationals *)

Module Numpy.
Local Open Scope Q_scope.

(** [np.clip(a, a_min, a_max)], which numpy defines as
    [minimum(a_max, maximum(a, a_min))]. *)
Definition clip (a a_min a_max : Q) : Q := Qmin (Qmax a a_min) a_max.

(** [np.clip] over a two-element range. *)
Definition clip_range (r : Q * Q) (a_min a_max : Q) : Q * Q :=
  (clip (fst r) a_min a_max, clip (snd r) a_min a_max).

(** A float that may be infinite. *)
Inductive endpoint : Type :=
| NegInf
| Finite (q : Q)
| PosInf.

(** [np.clip] of a possibly infinite value between finite bounds:
    [max(-inf, a_min) = a_min] and [min(inf, a_max) = a_max]. *)
Definition clip_endpoint (a : endpoint) (a_min a_max : Q) : Q :=
  match a with
  | NegInf => Qmin a_min a_max
  | Finite q => clip q a_min a_max
  | PosInf => a_max
  end.

Definition clip_endpoints (r : endpoint * endpoint) (a_min a_max : Q) : Q * Q :=
  (clip_endpoint (fst r) a_min a_max, clip_endpoint (snd r) a_min a_max).

(** [np.linspace(start, stop, num)]: [num] evenly spaced samples, the first
    at [start] and, when there are at least two, the last at [stop]. *)
Definition linspace (start stop : Q) (num : nat) : list Q :=
  let div := (Z.of_nat num - 1)%Z in
  let delta := stop - start in
  let step := delta / inject_Z div in
  map (fun i : nat =>
         if (0 <? div)%Z then start + inject_Z (Z.of_nat i) * step
         else start + inject_Z (Z.of_nat i) * delta)
      (seq 0 num).

(** [a % d] on floats: the remainder has the sign of the divisor,
    [a - floor(a / d) * d]. *)
Definition remainder (a d : Q) : Q := a - inject_Z (Qfloor (a / d)) * d.

(** [np.sign]: -1, 0 or 1. *)
Definition sign (x : Q) : Q := inject_Z (Z.sgn (Qnum x)).

(** Python's [int(x)] on a float: truncation toward zero. *)
Definition int (x : Q) : Z := Z.quot (Qnum x) (Z.pos (Qden x)).

(** Python's [round(x)]: to the nearest integer, ties to the even one. *)
Definition round (x : Q) : Z :=
  let f := Qfloor x in
  match Qcompare (x - inject_Z f) (1 # 2) with
  | Lt => f
  | Gt => (f + 1)%Z
  | Eq => if Z.even f then f else (f + 1)%Z
  end.

(** [np.roll(a, shift)] on a one-dimensional array: the shift is reduced
    modulo the length (modulo 1 for the empty array) and the last [offset]
    elements are moved to the front. *)
Definition roll {A : Type} (a : list A) (shift : Z) : list A :=
  let n := length a in
  let offset := Z.to_nat (shift mod Z.of_nat (if (n =? 0)%nat then 1 else n))%Z in
  drop (n - offset)%nat a ++ take (n - offset)%nat a.

End Numpy.

(** ** StepReferenceGenerator *)

Module StepReferenceGenerator.
Import Numpy.
Local Open Scope Q_scope.

(** What the class takes from outside this file: numpy's random generator
    ([uniform()] without arguments draws from [0, 1);
    [triangular(left, mode, right)]) and the inherited helper
    [_get_current_value], which draws a value from a two-element range.
    Every draw returns the value and the advanced generator. *)
Class RandomSource (RNG : Type) : Type := {
  uniform : RNG -> Q * RNG;
  triangular : Q -> Q -> Q -> RNG -> Q * RNG;
  _get_current_value : Q * Q -> RNG -> Q * RNG
}.

(** "Draw uniformly from the range": whatever the order of the two
    endpoints, the value lies between them. *)
Definition draws_within_range (RNG : Type) `{RandomSource RNG} : Prop :=
  forall (lo hi : Q) (rg : RNG),
    Qmin lo hi <= fst (_get_current_value (lo, hi) rg) <= Qmax lo hi.

(** The generator as [__init__] leaves it (state UNINITIALIZED):
    [amplitude_range or (0, np.inf)], [frequency_range],
    [offset_range or (-np.inf, np.inf)]; the episode length and the random
    generator are kept by the superclass. *)
Record Uninitialized (RNG : Type) : Type := mkUninitialized {
  init_amplitude_range : endpoint * endpoint;
  init_frequency_range : Q * Q;
  init_offset_range : endpoint * endpoint;
  init_episode_length : nat;
  init_random_generator : RNG
}.
Arguments mkUninitialized {RNG}.
Arguments init_amplitude_range {RNG}.
Arguments init_frequency_range {RNG}.
Arguments init_offset_range {RNG}.
Arguments init_episode_length {RNG}.
Arguments init_random_generator {RNG}.

Definition __init__ {RNG : Type}
    (amplitude_range : option (endpoint * endpoint))
    (frequency_range : Q * Q)
    (offset_range : option (endpoint * endpoint))
    (episode_length : nat) (rng : RNG) : Uninitialized RNG :=
  {| init_amplitude_range := default (Finite 0, PosInf) amplitude_range;
     init_frequency_range := frequency_range;
     init_offset_range := default (NegInf, PosInf) offset_range;
     init_episode_length := episode_length;
     init_random_generator := rng |}.

(** The generator once bound to a physical system (state READY). *)
Record StepReferenceGenerator (RNG : Type) : Type := mkStepReferenceGenerator {
  _amplitude_range : Q * Q;
  _frequency_range : Q * Q;
  _offset_range : Q * Q;
  _limit_margin : Q * Q;
  tau : Q;                         (* self._physical_system.tau *)
  _current_episode_length : nat;
  random_generator : RNG;
  _amplitude : Q;
  _frequency : Q;
  _offset : Q;
  _reference : list Q
}.
Arguments mkStepReferenceGenerator {RNG}.
Arguments _amplitude_range {RNG}.
Arguments _frequency_range {RNG}.
Arguments _offset_range {RNG}.
Arguments _limit_margin {RNG}.
Arguments tau {RNG}.
Arguments _current_episode_length {RNG}.
Arguments random_generator {RNG}.
Arguments _amplitude {RNG}.
Arguments _frequency {RNG}.
Arguments _offset {RNG}.
Arguments _reference {RNG}.

(** [set_modules].  The call [super().set_modules(physical_system)] belongs to
    the superclass: it stores the physical system, of which only [tau] is
    read here, and fixes [_limit_margin]; both are arguments.  The class
    attributes [_amplitude = _frequency = _offset = 0] are still in place. *)
Definition set_modules {RNG : Type} (self : Uninitialized RNG)
    (physical_system_tau : Q) (limit_margin : Q * Q) : StepReferenceGenerator RNG :=
  {| _amplitude_range :=
       clip_endpoints (init_amplitude_range self)
         0 ((snd limit_margin - fst limit_margin) / 2);
     _frequency_range := init_frequency_range self;
     _offset_range :=
       clip_endpoints (init_offset_range self) (fst limit_margin) (snd limit_margin);
     _limit_margin := limit_margin;
     tau := physical_system_tau;
     _current_episode_length := init_episode_length self;
     random_generator := init_random_generator self;
     _amplitude := 0;
     _frequency := 0;
     _offset := 0;
     _reference := [] |}.

(** [_reset_reference] on exact rationals.  A zero frequency or a zero step
    duration ends the call with an exception, here [None]; which exception,
    the state it leaves behind and the overflow of [steps_per_period] on
    doubles are in [StepReferenceGenerator64._reset_reference]. *)
Definition _reset_reference {RNG : Type} `{RandomSource RNG}
    (self : StepReferenceGenerator RNG) : option (StepReferenceGenerator RNG) :=
  let '(amplitude, rg) := _get_current_value (_amplitude_range self) (random_generator self) in
  let '(frequency, rg) := _get_current_value (_frequency_range self) rg in
  let offset_range :=
    clip_range (_offset_range self)
      (fst (_limit_margin self) + amplitude)
      (snd (_limit_margin self) - amplitude) in
  let '(offset, rg) := _get_current_value offset_range rg in
  let '(high_low_ratio, rg) := triangular 0 (1 # 2) 1 rg in
  let t :=
    linspace 0
      (inject_Z (Z.of_nat (_current_episode_length self) - 1) * tau self)
      (_current_episode_length self) in
  if Qeq_bool frequency 0 then None else
  let x := map (fun ti => frequency * remainder ti (1 / frequency)) t in
  let x := map (fun xi => xi - high_low_ratio) x in
  let x := map sign x in
  let '(phase, rg) := uniform rg in
  if Qeq_bool (tau self) 0 then None else
  let steps_per_period := 1 / frequency / tau self in
  let x := roll x (int (steps_per_period * phase)) in
  let reference := map (fun xi => amplitude * xi + offset) x in
  Some {| _amplitude_range := _amplitude_range self;
          _frequency_range := _frequency_range self;
          _offset_range := _offset_range self;
          _limit_margin := _limit_margin self;
          tau := tau self;
          _current_episode_length := _current_episode_length self;
          random_generator := rg;
          _amplitude := amplitude;
          _frequency := frequency;
          _offset := offset;
          _reference :=
            map (fun r => clip r (fst (_limit_margin self)) (snd (_limit_margin self)))
                reference |}.

(** The five values one call of [_reset_reference] draws, in the order of
    the calls: amplitude, frequency, offset ([_get_current_value]), the duty
    ratio ([triangular(0, 0.5, 1)]) and the phase ([uniform()]). *)
Record Draws : Type := mkDraws {
  drawn_amplitude : Q;
  drawn_frequency : Q;
  drawn_offset : Q;
  drawn_high_low_ratio : Q;
  drawn_phase : Q
}.

Definition draws {RNG : Type} `{RandomSource RNG}
    (self : StepReferenceGenerator RNG) : Draws :=
  let '(amplitude, rg) := _get_current_value (_amplitude_range self) (random_generator self) in
  let '(frequency, rg) := _get_current_value (_frequency_range self) rg in
  let offset_range :=
    clip_range (_offset_range self)
      (fst (_limit_margin self) + amplitude)
      (snd (_limit_margin self) - amplitude) in
  let '(offset, rg) := _get_current_value offset_range rg in
  let '(high_low_ratio, rg) := triangular 0 (1 # 2) 1 rg in
  let '(phase, rg) := uniform rg in
  mkDraws amplitude frequency offset high_low_ratio phase.

(** Both ends of the amplitude range lie in [0, half the limit span]. *)
Definition amplitude_range_clamped {RNG : Type} (self : StepReferenceGenerator RNG) : Prop :=
  let half := (snd (_limit_margin self) - fst (_limit_margin self)) / 2 in
  (0 <= fst (_amplitude_range self) <= half) /\
  (0 <= snd (_amplitude_range self) <= half).

(** The generators that a bound generator turns into, segment after
    segment. *)
Inductive generates {RNG : Type} `{RandomSource RNG}
    (start : StepReferenceGenerator RNG) : StepReferenceGenerator RNG -> Prop :=
| generates_start : generates start start
| generates_segment self self' :
    generates start self ->
    _reset_reference self = Some self' ->
    generates start self'.

(** The array [x] of [_reset_reference] just before [np.roll]. *)
Definition unrolled (frequency high_low_ratio tau_ : Q) (n : nat) : list Q :=
  map sign
    (map (fun xi => xi - high_low_ratio)
       (map (fun ti => frequency * remainder ti (1 / frequency))
          (linspace 0 (inject_Z (Z.of_nat n - 1) * tau_) n))).

(** *** The segment formula, by sample index

    The unshifted square wave at sample [i] of the time grid [t_i = i * tau],
    the sample a circular shift by [shift] moves to position [j], and the
    segment re-derived from the parameters. *)
Definition square_wave (frequency high_low_ratio tau_ : Q) (i : nat) : Q :=
  sign (frequency * remainder (inject_Z (Z.of_nat i) * tau_) (1 / frequency)
        - high_low_ratio).

Definition shifted_from (n : nat) (shift : Z) (j : nat) : nat :=
  Z.to_nat ((Z.of_nat j - shift) mod Z.of_nat n).

Definition shifted_to (n : nat) (shift : Z) (i : nat) : nat :=
  Z.to_nat ((Z.of_nat i + shift) mod Z.of_nat n).

Definition rederive (amplitude frequency offset high_low_ratio tau_ : Q)
    (limit_margin : Q * Q) (n : nat) (shift : Z) : list Q :=
  map (fun j : nat =>
         clip (amplitude
               * square_wave frequency high_low_ratio tau_ (shifted_from n shift j)
               + offset)
              (fst limit_margin) (snd limit_margin))
      (seq 0 n).

(** The shift as the code computes it, and as the sentence
    "circularly shift by round(phase / frequency / tau) samples" has it,
    both on exact rationals. *)
Definition code_shift (frequency tau_ phase : Q) : Z :=
  int (1 / frequency / tau_ * phase).

Definition spec_shift (frequency tau_ phase : Q) : Z :=
  round (phase / frequency / tau_).

(** *** A replaying random source, for the examples

    The state is a recorded list of hundredths; [uniform()] plays the next
    one back as a number of [0, 1), and an exhausted record plays 0. *)
Definition replay_uniform (tape : list nat) : Q * list nat :=
  match tape with
  | [] => (0, [])
  | k :: rest => (inject_Z (Z.of_nat (k mod 100)) / 100, rest)
  end.

(** Modelled from the spec: [_get_current_value] is inherited from
    [SubepisodedReferenceGenerator]; "draw uniformly from the range" is the
    point of the range that a uniform variate of [0, 1) selects. *)
Definition replay_get_current_value (value_range : Q * Q) (tape : list nat)
    : Q * list nat :=
  let '(u, rest) := replay_uniform tape in
  ((snd value_range - fst value_range) * u + fst value_range, rest).

(** A stand-in for numpy's triangular sampler with the same support. *)
Definition replay_triangular (left mode right : Q) (tape : list nat) : Q * list nat :=
  let '(u, rest) := replay_uniform tape in
  (left + (right - left) * u, rest).

#[export] Instance replay_source : RandomSource (list nat) := {
  uniform := replay_uniform;
  triangular := replay_triangular;
  _get_current_value := replay_get_current_value
}.

(** Four samples a quarter of a second apart, limit margin [-1, 1],
    frequency 1, amplitude 1, offset 0; the record makes the duty ratio 0.4
    and the phase 0.7. *)
Definition example_generator : StepReferenceGenerator (list nat) :=
  set_modules
    (__init__ (Some (Finite 1, Finite 1)) (1, 1) (Some (Finite 0, Finite 0))
              4 [0; 0; 0; 40; 70]%nat)
    (1 # 4) (-1, 1).

(** The same physical system under the constructor's defaults for the
    amplitude and the offset. *)
Definition default_generator : StepReferenceGenerator (list nat) :=
  set_modules (__init__ None (1, 10) None 4 [50; 20; 90; 40; 70]%nat) (1 # 4) (-1, 1).

(** The first segment of each. *)
Definition example_segment : StepReferenceGenerator (list nat) :=
  default example_generator (_reset_reference example_generator).

Definition default_segment : StepReferenceGenerator (list nat) :=
  default default_generator (_reset_reference default_generator).

(** The example generator with a record that makes the duty ratio 0. *)
Definition zero_ratio_generator : StepReferenceGenerator (list nat) :=
  set_modules
    (__init__ (Some (Finite 1, Finite 1)) (1, 1) (Some (Finite 0, Finite 0))
              4 [0; 0; 0; 0; 70]%nat)
    (1 # 4) (-1, 1).

Definition zero_ratio_segment : StepReferenceGenerator (list nat) :=
  default zero_ratio_generator (_reset_reference zero_ratio_generator).

End StepReferenceGenerator.

(** ** numpy and Python floats on IEEE doubles *)

Module Numpy64.
Import PrimFloat SpecFloat.
Local Open Scope float_scope.

(** Python's [float(z)] of an integer, exact below [2^53] and rounded to
    the nearest double below [2^63]; no array is longer than that. *)
Definition of_Z (z : Z) : float :=
  if (z <? 0)%Z then - PrimFloat.of_uint63 (Uint63.of_Z (- z))
  else PrimFloat.of_uint63 (Uint63.of_Z z).

(** The element loop of [np.clip] on floats:
    [_NPY_CLIP(x, min, max) = _NPY_MIN(_NPY_MAX(x, min), max)], where
    [_NPY_MAX(a, b)] is [a] when [a] is NaN and [a > b ? a : b] otherwise,
    and [_NPY_MIN] likewise with [<]. *)
Definition _NPY_MAX (a b : float) : float :=
  if PrimFloat.is_nan a then a else if b <? a then a else b.

Definition _NPY_MIN (a b : float) : float :=
  if PrimFloat.is_nan a then a else if a <? b then a else b.

Definition clip (a a_min a_max : float) : float :=
  _NPY_MIN (_NPY_MAX a a_min) a_max.

(** [np.clip] over a two-element range. *)
Definition clip_range (r : float * float) (a_min a_max : float) : float * float :=
  (clip (fst r) a_min a_max, clip (snd r) a_min a_max).

(** [np.linspace(start, stop, num)] as numpy computes it:
    [y = arange(0, num)], [step = delta / div] with [div = num - 1] and
    [delta = stop - start], then [y = y * step] (or [y / div * delta] when
    the step underflows to zero, or [y * delta] when [div] is not
    positive), [y += start], and last, when [num > 1], [y[-1] = stop]. *)
Definition linspace (start stop : float) (num : nat) : list float :=
  let div := (Z.of_nat num - 1)%Z in
  let start := start * 1 in
  let stop := stop * 1 in
  let delta := stop - start in
  let y := map (fun i : nat => of_Z (Z.of_nat i)) (seq 0 num) in
  let y :=
    if (0 <? div)%Z then
      let step := delta / of_Z div in
      if step =? 0 then map (fun yi => yi / of_Z div * delta) y
      else map (fun yi => yi * step) y
    else map (fun yi => yi * delta) y in
  let y := map (fun yi => yi + start) y in
  if (1 <? num)%nat then <[(num - 1)%nat := stop]> y else y.

(** C's [fmod]: the exact remainder of the truncated division, with the
    sign of the dividend. *)
Definition fmod (a b : float) : float :=
  match FloatOps.Prim2SF a, FloatOps.Prim2SF b with
  | S754_nan, _ | _, S754_nan => PrimFloat.nan
  | S754_infinity _, _ => PrimFloat.nan
  | _, S754_zero _ => PrimFloat.nan
  | S754_zero _, _ => a
  | S754_finite _ _ _, S754_infinity _ => a
  | S754_finite sa ma ea, S754_finite _ mb eb =>
      let e := Z.min ea eb in
      let r := ((Z.pos ma * 2 ^ (ea - e)) mod (Z.pos mb * 2 ^ (eb - e)))%Z in
      let magnitude := FloatOps.Z.ldexp (PrimFloat.of_uint63 (Uint63.of_Z r)) e in
      if sa then - magnitude else magnitude
  end.

(** [a % b] on floats ([np.remainder], Python's [%]): [fmod], moved by [b]
    when its sign differs from the sign of [b]; a zero remainder takes the
    sign of [b]. *)
Definition remainder (a b : float) : float :=
  let mod_ := fmod a b in
  if b =? 0 then mod_
  else if mod_ =? 0 then (if b <? 0 then PrimFloat.neg_zero else PrimFloat.zero)
  else if xorb (b <? 0) (mod_ <? 0) then mod_ + b
  else mod_.

(** [np.sign]: 1, -1 or 0, and NaN for NaN. *)
Definition sign (x : float) : float :=
  if 0 <? x then 1 else if x <? 0 then -1 else if x =? 0 then 0 else x.

(** Python's [int(x)] on a float: truncation toward zero; [None] where
    Python raises, [OverflowError] on an infinity and [ValueError] on NaN. *)
Definition int (x : float) : option Z :=
  match FloatOps.Prim2SF x with
  | S754_zero _ => Some 0%Z
  | S754_finite s m e =>
      let magnitude :=
        if (0 <=? e)%Z then (Z.pos m * 2 ^ e)%Z else (Z.pos m / 2 ^ (- e))%Z in
      Some (if s then (- magnitude)%Z else magnitude)
  | S754_infinity _ | S754_nan => None
  end.

(** Python's [round(x)] on a float: to the nearest integer, ties to the
    even one. *)
Definition round (x : float) : option Z :=
  match FloatOps.Prim2SF x with
  | S754_zero _ => Some 0%Z
  | S754_finite s m e =>
      let magnitude :=
        if (0 <=? e)%Z then (Z.pos m * 2 ^ e)%Z
        else
          let d := (2 ^ (- e))%Z in
          let q := (Z.pos m / d)%Z in
          match (2 * (Z.pos m mod d) ?= d)%Z with
          | Lt => q
          | Gt => (q + 1)%Z
          | Eq => if Z.even q then q else (q + 1)%Z
          end in
      Some (if s then (- magnitude)%Z else magnitude)
  | S754_infinity _ | S754_nan => None
  end.

End Numpy64.

(** ** StepReferenceGenerator on doubles *)

Module StepReferenceGenerator64.
Import PrimFloat Numpy64.
Local Open Scope float_scope.
#[local] Set Warnings "-inexact-float".

(** numpy's random generator and the inherited [_get_current_value], as in
    [StepReferenceGenerator.RandomSource], on doubles. *)
Class RandomSource (RNG : Type) : Type := {
  uniform : RNG -> float * RNG;
  triangular : float -> float -> float -> RNG -> float * RNG;
  _get_current_value : float * float -> RNG -> float * RNG
}.

(** The generator as [__init__] leaves it. *)
Record Uninitialized (RNG : Type) : Type := mkUninitialized {
  init_amplitude_range : float * float;
  init_frequency_range : float * float;
  init_offset_range : float * float;
  init_episode_length : nat;
  init_random_generator : RNG
}.
Arguments mkUninitialized {RNG}.
Arguments init_amplitude_range {RNG}.
Arguments init_frequency_range {RNG}.
Arguments init_offset_range {RNG}.
Arguments init_episode_length {RNG}.
Arguments init_random_generator {RNG}.

Definition __init__ {RNG : Type}
    (amplitude_range : option (float * float))
    (frequency_range : float * float)
    (offset_range : option (float * float))
    (episode_length : nat) (rng : RNG) : Uninitialized RNG :=
  {| init_amplitude_range := default (0, infinity) amplitude_range;
     init_frequency_range := frequency_range;
     init_offset_range := default (neg_infinity, infinity) offset_range;
     init_episode_length := episode_length;
     init_random_generator := rng |}.

(** The generator once bound to a physical system. *)
Record StepReferenceGenerator (RNG : Type) : Type := mkStepReferenceGenerator {
  _amplitude_range : float * float;
  _frequency_range : float * float;
  _offset_range : float * float;
  _limit_margin : float * float;
  tau : float;                     (* self._physical_system.tau *)
  _current_episode_length : nat;
  random_generator : RNG;
  _amplitude : float;
  _frequency : float;
  _offset : float;
  _reference : list float
}.
Arguments mkStepReferenceGenerator {RNG}.
Arguments _amplitude_range {RNG}.
Arguments _frequency_range {RNG}.
Arguments _offset_range {RNG}.
Arguments _limit_margin {RNG}.
Arguments tau {RNG}.
Arguments _current_episode_length {RNG}.
Arguments random_generator {RNG}.
Arguments _amplitude {RNG}.
Arguments _frequency {RNG}.
Arguments _offset {RNG}.
Arguments _reference {RNG}.

Definition set_modules {RNG : Type} (self : Uninitialized RNG)
    (physical_system_tau : float) (limit_margin : float * float)
    : StepReferenceGenerator RNG :=
  {| _amplitude_range :=
       clip_range (init_amplitude_range self)
         0 ((snd limit_margin - fst limit_margin) / 2);
     _frequency_range := init_frequency_range self;
     _offset_range :=
       clip_range (init_offset_range self) (fst limit_margin) (snd limit_margin);
     _limit_margin := limit_margin;
     tau := physical_system_tau;
     _current_episode_length := init_episode_length self;
     random_generator := init_random_generator self;
     _amplitude := 0;
     _frequency := 0;
     _offset := 0;
     _reference := [] |}.

(** How a call ends. *)
Inductive Exception : Type :=
| ZeroDivisionError
| OverflowError
| ValueError.

Inductive Outcome : Type :=
| Returned
| Raised (e : Exception).

(** The generator after the assignments to [_amplitude], [_frequency] and
    [_offset], with the random generator as the draws so far have left
    it. *)
Definition assigned {RNG : Type} (self : StepReferenceGenerator RNG)
    (amplitude frequency offset : float) (rg : RNG) (reference : list float)
    : StepReferenceGenerator RNG :=
  {| _amplitude_range := _amplitude_range self;
     _frequency_range := _frequency_range self;
     _offset_range := _offset_range self;
     _limit_margin := _limit_margin self;
     tau := tau self;
     _current_episode_length := _current_episode_length self;
     random_generator := rg;
     _amplitude := amplitude;
     _frequency := frequency;
     _offset := offset;
     _reference := reference |}.

(** [_reset_reference]: how the call ends and the generator it leaves.  The
    drawn frequency and [tau] are Python floats, on which a division by
    zero raises [ZeroDivisionError] (were they numpy floats, the quotient
    would be infinite or NaN and [int] would raise in its place: the call
    raises either way); [int] raises on an infinite or NaN product.  An
    exception leaves the three parameters assigned, the draws made so far
    consumed and [_reference] as it was. *)
Definition _reset_reference {RNG : Type} `{RandomSource RNG}
    (self : StepReferenceGenerator RNG) : Outcome * StepReferenceGenerator RNG :=
  let '(amplitude, rg) := _get_current_value (_amplitude_range self) (random_generator self) in
  let '(frequency, rg) := _get_current_value (_frequency_range self) rg in
  let offset_range :=
    clip_range (_offset_range self)
      (fst (_limit_margin self) + amplitude)
      (snd (_limit_margin self) - amplitude) in
  let '(offset, rg) := _get_current_value offset_range rg in
  let '(high_low_ratio, rg) := triangular 0 0.5 1 rg in
  let t :=
    linspace 0
      (of_Z (Z.of_nat (_current_episode_length self) - 1) * tau self)
      (_current_episode_length self) in
  if frequency =? 0 then
    (Raised ZeroDivisionError,
     assigned self amplitude frequency offset rg (_reference self))
  else
  let x := map (fun ti => frequency * remainder ti (1 / frequency)) t in
  let x := map (fun xi => xi - high_low_ratio) x in
  let x := map sign x in
  let '(phase, rg) := uniform rg in
  if tau self =? 0 then
    (Raised ZeroDivisionError,
     assigned self amplitude frequency offset rg (_reference self))
  else
  let steps_per_period := 1 / frequency / tau self in
  match int (steps_per_period * phase) with
  | None =>
      (Raised (if is_nan (steps_per_period * phase) then ValueError else OverflowError),
       assigned self amplitude frequency offset rg (_reference self))
  | Some shift =>
      let x := Numpy.roll x shift in
      let reference := map (fun xi => amplitude * xi + offset) x in
      (Returned,
       assigned self amplitude frequency offset rg
         (map (fun r => clip r (fst (_limit_margin self)) (snd (_limit_margin self)))
              reference))
  end.

(** The five values one call of [_reset_reference] draws, in the order of
    the calls. *)
Record Draws : Type := mkDraws {
  drawn_amplitude : float;
  drawn_frequency : float;
  drawn_offset : float;
  drawn_high_low_ratio : float;
  drawn_phase : float
}.

Definition draws {RNG : Type} `{RandomSource RNG}
    (self : StepReferenceGenerator RNG) : Draws :=
  let '(amplitude, rg) := _get_current_value (_amplitude_range self) (random_generator self) in
  let '(frequency, rg) := _get_current_value (_frequency_range self) rg in
  let offset_range :=
    clip_range (_offset_range self)
      (fst (_limit_margin self) + amplitude)
      (snd (_limit_margin self) - amplitude) in
  let '(offset, rg) := _get_current_value offset_range rg in
  let '(high_low_ratio, rg) := triangular 0 0.5 1 rg in
  let '(phase, rg) := uniform rg in
  mkDraws amplitude frequency offset high_low_ratio phase.

(** *** The segment formula, by sample

    The clipped sample the formula gives at time [t]; the time grid of the
    code, [np.linspace(0, (n - 1) * tau, n)]; the shift of the code,
    [int((1 / frequency / tau) * phase)], each operation rounded as the
    code performs it. *)
Definition sample (amplitude frequency offset high_low_ratio : float)
    (limit_margin : float * float) (t : float) : float :=
  clip (amplitude * sign (frequency * remainder t (1 / frequency) - high_low_ratio)
        + offset)
       (fst limit_margin) (snd limit_margin).

Definition time_grid (tau_ : float) (n : nat) : list float :=
  linspace 0 (of_Z (Z.of_nat n - 1) * tau_) n.

Definition code_shift (frequency tau_ phase : float) : option Z :=
  int (1 / frequency / tau_ * phase).

(** The segment as the sentence "re-evaluating the formula on the time
    grid [t_i = i * tau], with the circular shift applied" has it: position
    [j] holds the sample of grid point [(j - shift) mod n]. *)
Definition rederive_on_multiples (amplitude frequency offset high_low_ratio tau_ : float)
    (limit_margin : float * float) (n : nat) (shift : Z) : list float :=
  map (fun j : nat =>
         sample amplitude frequency offset high_low_ratio limit_margin
           (of_Z (Z.of_nat (StepReferenceGenerator.shifted_from n shift j)) * tau_))
      (seq 0 n).

(** The shift as the sentence "circularly shift by
    round(phase / frequency / tau) samples" has it. *)
Definition spec_shift (frequency tau_ phase : float) : option Z :=
  round (phase / frequency / tau_).

(** *** A replaying random source on doubles

    The state is a recorded list of variates of [0, 1); [uniform()] plays
    the next one back, and an exhausted record plays 0. *)
Definition replay_uniform (tape : list float) : float * list float :=
  match tape with
  | [] => (0, [])
  | u :: rest => (u, rest)
  end.

(** Modelled from the spec: [_get_current_value] is inherited from
    [SubepisodedReferenceGenerator]; "draw uniformly from the range" is the
    point of the range that a uniform variate of [0, 1) selects. *)
Definition replay_get_current_value (value_range : float * float) (tape : list float)
    : float * list float :=
  let '(u, rest) := replay_uniform tape in
  ((snd value_range - fst value_range) * u + fst value_range, rest).

(** A stand-in for numpy's triangular sampler with the same support. *)
Definition replay_triangular (left mode right : float) (tape : list float)
    : float * list float :=
  let '(u, rest) := replay_uniform tape in
  (left + (right - left) * u, rest).

#[export] Instance replay_source : RandomSource (list float) := {
  uniform := replay_uniform;
  triangular := replay_triangular;
  _get_current_value := replay_get_current_value
}.

(** Seven samples 0.2 s apart, limit margin [-1, 1], amplitude 1,
    frequency 5, offset 0; the record makes the duty ratio 0.4 and the
    phase 0. *)
Definition grid_generator : StepReferenceGenerator (list float) :=
  set_modules
    (__init__ (Some (1, 1)) (5, 5) (Some (0, 0)) 7 [0; 0; 0; 0.4; 0])
    0.2 (-1, 1).

(** A hundred samples 0.01 s apart, frequency 1; duty ratio 0.4, phase
    0.29. *)
Definition truncating_generator : StepReferenceGenerator (list float) :=
  set_modules
    (__init__ (Some (1, 1)) (1, 1) (Some (0, 0)) 100 [0; 0; 0; 0.4; 0.29])
    0.01 (-1, 1).

(** Four samples a quarter of a second apart, frequency 1; duty ratio 0.4,
    phase 0.7. *)
Definition quarter_generator : StepReferenceGenerator (list float) :=
  set_modules
    (__init__ (Some (1, 1)) (1, 1) (Some (0, 0)) 4 [0; 0; 0; 0.4; 0.7])
    0.25 (-1, 1).

(** Frequency and step duration of 1e-200, neither of them zero; phase
    0.5. *)
Definition overflowing_generator : StepReferenceGenerator (list float) :=
  set_modules
    (__init__ (Some (1, 1)) (1e-200, 1e-200) (Some (0, 0)) 4 [0; 0; 0; 0.4; 0.5])
    1e-200 (-1, 1).

(** The generator each of them leaves after one call. *)
Definition grid_segment : StepReferenceGenerator (list float) :=
  snd (_reset_reference grid_generator).

Definition truncating_segment : StepReferenceGenerator (list float) :=
  snd (_reset_reference truncating_generator).

Definition quarter_segment : StepReferenceGenerator (list float) :=
  snd (_reset_reference quarter_generator).

End StepReferenceGenerator64.

(** ** StateActionProcessor *)

Module StateActionProcessor.
Local Open Scope Q_scope.

(** *** Values and effects

    Two uses of [option] are kept apart by name only: a Python value that
    may be [None] ([py A]) and the outcome of an attribute read that may
    raise ([option (py A)], [None] for the exception).  A method call is a
    [Run]: the calls it makes to other objects, in order, and its result,
    [None] when an exception ended it. *)
Abbreviation py := option (only parsing).

Definition Seed : Type := py Z.

(** Modelled from the spec: a Space is "a declarative bound (low, high per
    dimension, and a discrete/continuous flag)"; the class itself comes from
    the gymnasium package. *)
Inductive Space : Type :=
| Box (low high : list Q)
| Discrete (n : nat).

Inductive Action : Type :=
| Continuous (v : list Q)
| Switching (k : nat).

Fixpoint within (low high v : list Q) : bool :=
  match low, high, v with
  | [], [], [] => true
  | l :: low', h :: high', x :: v' =>
      Qle_bool l x && Qle_bool x h && within low' high' v'
  | _, _, _ => false
  end.

Definition contains (space : Space) (action : Action) : bool :=
  match space, action with
  | Box low high, Continuous v => within low high v
  | Discrete n, Switching k => (k <? n)%nat
  | _, _ => false
  end.

Definition State : Type := list Q.

Inductive Call : Type :=
| next_generator_call
| inner_simulate_call (action : Action)
| inner_reset_call
| inner_seed_call (seed : Seed).

Definition Run (A : Type) : Type := list Call * option A.

Definition ret {A : Type} (a : A) : Run A := ([], Some a).
Definition raise {A : Type} : Run A := ([], None).
Definition call (c : Call) : Run unit := ([c], Some tt).
Definition lift {A : Type} (o : option A) : Run A := ([], o).

Definition bind {A B : Type} (m : Run A) (k : A -> Run B) : Run B :=
  match m with
  | (log, None) => (log, None)
  | (log, Some a) => let '(log', r) := k a in (log ++ log', r)
  end.

#[export] Instance run_ret : MRet Run := @ret.
#[export] Instance run_bind : MBind Run := fun A B k m => bind m k.

Definition calls {A : Type} (m : Run A) : list Call := fst m.
Definition result {A : Type} (m : Run A) : option A := snd m.

(** *** The layer below a stage

    What a stage uses of the object it wraps, be that the physical system
    or another stage: the attributes it reads, the three methods it
    delegates to and the test [isinstance(_, gem.core.RandomComponent)]. *)
Class Layer (T : Type) : Type := {
  layer_action_space : T -> option (py Space);
  layer_state_space : T -> option (py Space);
  layer_limits : T -> option (py (list Q));
  layer_nominal_state : T -> option (py (list Q));
  layer_state_names : T -> option (py (list string));
  layer_tau : T -> option (py Q);
  layer_simulate : Action -> T -> Run (State * T);
  layer_reset : T -> Run (State * T);
  layer_is_random_component : T -> bool;
  layer_seed : Seed -> T -> Run T
}.

(** The part of a stage that [gem.core.RandomComponent] owns: the state its
    [__init__] creates and [next_generator()] rotates. *)
Class RandomComponent (RC : Type) : Type := {
  random_component_init : RC;
  next_generator : RC -> option RC
}.

(** *** The stage *)

Record StateActionProcessor (Inner RC : Type) : Type := mkStateActionProcessor {
  _physical_system : py Inner;
  _action_space : py Space;
  _state_space : py Space;
  _limits : py (list Q);
  _nominal_state : py (list Q);
  _state_names : py (list string);
  _state_positions : gmap string nat;
  _tau : py Q;
  random_component : RC
}.
Arguments mkStateActionProcessor {Inner RC}.
Arguments _physical_system {Inner RC}.
Arguments _action_space {Inner RC}.
Arguments _state_space {Inner RC}.
Arguments _limits {Inner RC}.
Arguments _nominal_state {Inner RC}.
Arguments _state_names {Inner RC}.
Arguments _state_positions {Inner RC}.
Arguments _tau {Inner RC}.
Arguments random_component {Inner RC}.

Section Stage.
Context {Inner RC : Type} `{Layer Inner} `{RandomComponent RC}.
Abbreviation Stage := (StateActionProcessor Inner RC).

(** Assignments to one attribute. *)
Definition with_physical_system (inner : py Inner) (self : Stage) : Stage :=
  mkStateActionProcessor inner (_action_space self) (_state_space self)
    (_limits self) (_nominal_state self) (_state_names self)
    (_state_positions self) (_tau self) (random_component self).

Definition with_random_component (rc : RC) (self : Stage) : Stage :=
  mkStateActionProcessor (_physical_system self) (_action_space self)
    (_state_space self) (_limits self) (_nominal_state self)
    (_state_names self) (_state_positions self) (_tau self) rc.

(** [self._physical_system.<attribute>]: an [AttributeError] when no
    inner layer is attached. *)
Definition inner_attribute {A : Type} (read : Inner -> option (py A))
    (self : Stage) : option (py A) :=
  match _physical_system self with
  | None => None
  | Some inner => read inner
  end.

Definition action_space (self : Stage) : option (py Space) :=
  match _action_space self with
  | None => inner_attribute layer_action_space self
  | Some space => Some (Some space)
  end.

(** The two setters. *)
Definition set_action_space (space : py Space) (self : Stage) : Stage :=
  mkStateActionProcessor (_physical_system self) space (_state_space self)
    (_limits self) (_nominal_state self) (_state_names self)
    (_state_positions self) (_tau self) (random_component self).

Definition state_space (self : Stage) : option (py Space) :=
  match _state_space self with
  | None => inner_attribute layer_state_space self
  | Some space => Some (Some space)
  end.

Definition set_state_space (space : py Space) (self : Stage) : Stage :=
  mkStateActionProcessor (_physical_system self) (_action_space self) space
    (_limits self) (_nominal_state self) (_state_names self)
    (_state_positions self) (_tau self) (random_component self).

Definition physical_system (self : Stage) : py Inner := _physical_system self.

Definition limits (self : Stage) : option (py (list Q)) :=
  match _limits self with
  | None => inner_attribute layer_limits self
  | Some l => Some (Some l)
  end.

Definition nominal_state (self : Stage) : option (py (list Q)) :=
  match _nominal_state self with
  | None => inner_attribute layer_nominal_state self
  | Some l => Some (Some l)
  end.

Definition state_names (self : Stage) : option (py (list string)) :=
  match _state_names self with
  | None => inner_attribute layer_state_names self
  | Some names => Some (Some names)
  end.

(** [tau] is inherited from [gem.core.PhysicalSystem]: the stored
    [_tau]. *)
Definition tau (self : Stage) : option (py Q) := Some (_tau self).

(** [{key: index for index, key in enumerate(names)}], the insertions
    made in the order of the list, a later one replacing an earlier one
    under the same key. *)
Fixpoint state_positions (index : nat) (names : list string)
    (positions : gmap string nat) : gmap string nat :=
  match names with
  | [] => positions
  | key :: rest => state_positions (S index) rest (<[key := index]> positions)
  end.

(** [set_physical_system]; the result is the stage after the call paired
    with the returned object, which is [self].  Iterating over
    [state_names] raises when it is [None]. *)
Definition set_physical_system (self : Stage) (physical_system : Inner)
    : option (Stage * Stage) :=
  action_space_ ← layer_action_space physical_system;
  state_names_ ← layer_state_names physical_system;
  names ← state_names_;
  tau_ ← layer_tau physical_system;
  let self :=
    mkStateActionProcessor (Some physical_system) action_space_
      (_state_space self) (_limits self) (_nominal_state self)
      (Some names) (state_positions 0 names ∅) tau_
      (random_component self) in
  Some (self, self).

(** Modelled from the spec: the two base initialisers
    [gem.core.PhysicalSystem.__init__(self, action_space, state_space,
    state_names, tau)] and [gem.core.RandomComponent.__init__(self)] are
    outside the sources.  The Physical System of the spec exposes
    [action_space], [state_space], [state_names] and [tau], with a
    name-to-index mapping "derived once and cached", and a random state is
    "created at component construction": the four arguments become the
    fields behind the four attributes, the mapping is derived from the
    names, and the random state is the initial one.  The attributes no
    initialiser has assigned yet read as [None]. *)
Definition base__init__ (action_space_ state_space_ : py Space)
    (state_names_ : list string) (tau_ : py Q) : Stage :=
  mkStateActionProcessor None action_space_ state_space_ None None
    (Some state_names_) (state_positions 0 state_names_ ∅) tau_
    random_component_init.

Definition with_limits (limits_ : py (list Q)) (self : Stage) : Stage :=
  mkStateActionProcessor (_physical_system self) (_action_space self)
    (_state_space self) limits_ (_nominal_state self) (_state_names self)
    (_state_positions self) (_tau self) (random_component self).

Definition with_nominal_state (nominal_state_ : py (list Q)) (self : Stage) : Stage :=
  mkStateActionProcessor (_physical_system self) (_action_space self)
    (_state_space self) (_limits self) nominal_state_ (_state_names self)
    (_state_positions self) (_tau self) (random_component self).

Definition __init__ (physical_system : py Inner) : option Stage :=
  let self := base__init__ None None [] None in
  let self := with_physical_system physical_system self in
  let self := with_limits None self in
  let self := with_nominal_state None self in
  match physical_system with
  | Some inner => fst <$> set_physical_system self inner
  | None => Some self
  end.

Definition seed (seed_ : Seed) (self : Stage) : Run Stage :=
  match _physical_system self with
  | Some inner =>
      if layer_is_random_component inner then
        call (inner_seed_call seed_);;
        inner' ← layer_seed seed_ inner;
        ret (with_physical_system (Some inner') self)
      else ret self
  | None => ret self
  end.

Definition simulate (action : Action) (self : Stage) : Run (State * Stage) :=
  inner ← lift (_physical_system self);
  call (inner_simulate_call action);;
  '(state, inner') ← layer_simulate action inner;
  ret (state, with_physical_system (Some inner') self).

Definition reset (self : Stage) : Run (State * Stage) :=
  call next_generator_call;;
  rc ← lift (next_generator (random_component self));
  let self := with_random_component rc self in
  inner ← lift (_physical_system self);
  call inner_reset_call;;
  '(state, inner') ← layer_reset inner;
  ret (state, with_physical_system (Some inner') self).

(** A stage is itself a layer, and a [RandomComponent]. *)
#[export] Instance stage_layer : Layer Stage := {
  layer_action_space := action_space;
  layer_state_space := state_space;
  layer_limits := limits;
  layer_nominal_state := nominal_state;
  layer_state_names := state_names;
  layer_tau := tau;
  layer_simulate := simulate;
  layer_reset := reset;
  layer_is_random_component := fun _ => true;
  layer_seed := seed
}.
End Stage.

(** *** The processor chain

    [depth] stages, each constructed around the one below, the innermost
    around the physical system. *)
Section Chain.
Context {Leaf RC : Type} {leaf_layer : Layer Leaf} {random : RandomComponent RC}.

Fixpoint Chain (depth : nat) : Type :=
  match depth with
  | O => Leaf
  | S below => StateActionProcessor (Chain below) RC
  end.

Fixpoint chain_layer (depth : nat) : Layer (Chain depth) :=
  match depth with
  | O => leaf_layer
  | S below => @stage_layer (Chain below) RC (chain_layer below) random
  end.

Fixpoint wrap (depth : nat) (physical_system : Leaf) : option (Chain depth) :=
  match depth with
  | O => Some physical_system
  | S below =>
      inner ← wrap below physical_system;
      @__init__ (Chain below) RC (chain_layer below) random (Some inner)
  end.
End Chain.

(** *** A small plant and random state, for the examples *)

(** Modelled from the spec: the random state of [gem.core.RandomComponent],
    "created at component construction with an unset seed, explicitly
    (re)seeded by seed()"; [next_generator()] "rotates the random generator
    to a fresh seed derived from the seed sequence", here the count of the
    generators spawned so far. *)
Record SeedState : Type := mkSeedState {
  seed_sequence : py Z;
  spawned : nat
}.

#[export] Instance seed_state_random_component : RandomComponent SeedState := {
  random_component_init := mkSeedState None 0;
  next_generator := fun rc => Some (mkSeedState (seed_sequence rc) (S (spawned rc)))
}.

(** Modelled from the spec: a Physical System "exposes simulate(action) ->
    state, reset() -> state, and read-only action_space, state_space,
    state_names, limits, nominal_state, tau".  This one integrates the first
    action component over [tau], counts its steps, refuses an action outside
    its own action space and, when it has a random state, is a
    [RandomComponent] whose [seed] restarts that state. *)
Record Plant : Type := mkPlant {
  plant_action_space : Space;
  plant_state_space : Space;
  plant_limits : list Q;
  plant_nominal_state : list Q;
  plant_state_names : list string;
  plant_tau : Q;
  plant_state : State;
  plant_k : nat;
  plant_random : py SeedState
}.

Definition drive (action : Action) : Q :=
  match action with
  | Continuous v => hd 0 v
  | Switching k => inject_Z (Z.of_nat k)
  end.

Definition plant_simulate (action : Action) (p : Plant) : Run (State * Plant) :=
  if contains (plant_action_space p) action then
    let state := map (fun x => x + plant_tau p * drive action) (plant_state p) in
    ret (state,
         mkPlant (plant_action_space p) (plant_state_space p) (plant_limits p)
           (plant_nominal_state p) (plant_state_names p) (plant_tau p)
           state (S (plant_k p)) (plant_random p))
  else raise.

Definition plant_reset (p : Plant) : Run (State * Plant) :=
  let state := map (fun _ => 0) (plant_state p) in
  ret (state,
       mkPlant (plant_action_space p) (plant_state_space p) (plant_limits p)
         (plant_nominal_state p) (plant_state_names p) (plant_tau p)
         state 0 (plant_random p ≫= next_generator)).

Definition plant_seed (seed_ : Seed) (p : Plant) : Run Plant :=
  match plant_random p with
  | Some _ =>
      ret (mkPlant (plant_action_space p) (plant_state_space p) (plant_limits p)
             (plant_nominal_state p) (plant_state_names p) (plant_tau p)
             (plant_state p) (plant_k p) (Some (mkSeedState seed_ 0)))
  | None => raise
  end.

#[export] Instance plant_layer : Layer Plant := {
  layer_action_space := fun p => Some (Some (plant_action_space p));
  layer_state_space := fun p => Some (Some (plant_state_space p));
  layer_limits := fun p => Some (Some (plant_limits p));
  layer_nominal_state := fun p => Some (Some (plant_nominal_state p));
  layer_state_names := fun p => Some (Some (plant_state_names p));
  layer_tau := fun p => Some (Some (plant_tau p));
  layer_simulate := plant_simulate;
  layer_reset := plant_reset;
  layer_is_random_component := fun p => bool_decide (is_Some (plant_random p));
  layer_seed := plant_seed
}.

Definition example_plant : Plant :=
  mkPlant (Box [-10] [10]) (Box [-1; -1] [1; 1]) [100; 20] [50; 10]
    ["omega"; "i"]%string (1 # 10) [0; 0] 0 (Some (mkSeedState None 0)).

(** The same plant without a random state. *)
Definition plain_plant : Plant :=
  mkPlant (Box [-10] [10]) (Box [-1; -1] [1; 1]) [100; 20] [50; 10]
    ["omega"; "i"]%string (1 # 10) [0; 0] 0 None.

(** A stage constructed without a physical system. *)
Definition unattached_stage : StateActionProcessor Plant SeedState :=
  default (mkStateActionProcessor None None None None None None ∅ None
             random_component_init)
          (__init__ None).

(** A stage constructed around the plant. *)
Definition example_stage : StateActionProcessor Plant SeedState :=
  default unattached_stage (__init__ (Some example_plant)).

Definition plain_stage : StateActionProcessor Plant SeedState :=
  default unattached_stage (__init__ (Some plain_plant)).

(** The stage with its action space narrowed to [-1, 1] through the
    setter. *)
Definition narrowed_stage : StateActionProcessor Plant SeedState :=
  set_action_space (Some (Box [-1] [1])) example_stage.

(** A second stage constructed around the first. *)
Definition outer_stage
    : StateActionProcessor (StateActionProcessor Plant SeedState) SeedState :=
  default (mkStateActionProcessor None None None None None None ∅ None
             random_component_init)
          (__init__ (Some example_stage)).

(** What a successful run leaves of the stage. *)
Definition stage_after {Inner RC A : Type}
    (self : StateActionProcessor Inner RC)
    (run : Run (A * StateActionProcessor Inner RC)) : StateActionProcessor Inner RC :=
  from_option snd self (result run).

Definition stage_after_seed {Inner RC : Type}
    (self : StateActionProcessor Inner RC)
    (run : Run (StateActionProcessor Inner RC)) : StateActionProcessor Inner RC :=
  default self (result run).

(** *** Along a chain *)

Section AlongChain.
Context {Leaf RC : Type} {leaf_layer : Layer Leaf} {random : RandomComponent RC}.

(** The random states of the stages of a chain, from the head inwards. *)
Fixpoint stage_random_states (depth : nat) : @Chain Leaf RC depth -> list RC :=
  match depth with
  | O => fun _ => []
  | S below =>
      fun head : StateActionProcessor (@Chain Leaf RC below) RC =>
        random_component head
          :: match _physical_system head with
             | Some inner => stage_random_states below inner
             | None => []
             end
  end.
End AlongChain.

(** [__str__], "<{}{}>".format(type(self).__name__, self.physical_system),
    for the class itself; [inner_str] is [str] of the inner layer, and
    [str(None)] is "None".  [__repr__] returns the same string. *)
Definition __str__ {Inner RC : Type} (inner_str : Inner -> string)
    (self : StateActionProcessor Inner RC) : string :=
  ("<" ++ "StateActionProcessor"
       ++ match physical_system self with
          | Some inner => inner_str inner
          | None => "None"
          end
       ++ ">")%string.

Definition __repr__ {Inner RC : Type} (inner_str : Inner -> string)
    (self : StateActionProcessor Inner RC) : string :=
  __str__ inner_str self.

(** [str] of the head of a chain, every stage printing the one below. *)
Fixpoint chain_str {Leaf RC : Type} (leaf_str : Leaf -> string) (depth : nat)
    : @Chain Leaf RC depth -> string :=
  match depth with
  | O => leaf_str
  | S below => __str__ (chain_str leaf_str below)
  end.

(** The narrowed stage attached again, to the plant without a random
    state. *)
Definition reattached_stage : StateActionProcessor Plant SeedState :=
  default unattached_stage (fst <$> set_physical_system narrowed_stage plain_plant).

(** The example stage after one step and after one reset. *)
Definition stepped_stage : StateActionProcessor Plant SeedState :=
  stage_after example_stage (simulate (Continuous [5]) example_stage).

Definition reset_stage : StateActionProcessor Plant SeedState :=
  stage_after example_stage (reset example_stage).

(** [n] copies of a string, one after the other. *)
Fixpoint repeated (n : nat) (s : string) : string :=
  match n with
  | O => ""
  | S k => (s ++ repeated k s)%string
  end.

(** The plant prints as its name. *)
Definition plant_str (p : Plant) : string := "Plant".

End StateActionProcessor.

(** ** StateActionProcessor: attributes as shared objects *)

Module SharedAttributes.
Local Open Scope Q_scope.

Abbreviation py := option (only parsing).

(** *** The store

    An attribute of a Python object holds a reference.  The objects behind
    the attributes that [set_physical_system] reads are kept in a store:
    lists (or tuples) of state names, spaces and arrays.  An assignment
    [self._state_names = physical_system.state_names] copies the reference,
    so the stage and the physical system then hold the same object. *)
Definition ref : Type := nat.

Inductive Object : Type :=
| names_object (names : list string)
| space_object (space : StateActionProcessor.Space)
| array_object (values : list Q).

Abbreviation Store := (gmap ref Object) (only parsing).

Definition names_at (store : Store) (r : ref) : option (list string) :=
  match store !! r with
  | Some (names_object names) => Some names
  | _ => None
  end.

Definition space_at (store : Store) (r : ref) : option StateActionProcessor.Space :=
  match store !! r with
  | Some (space_object space) => Some space
  | _ => None
  end.

(** Changes in place: [names.append(key)] on the list behind a reference,
    and a space whose bounds are overwritten. *)
Definition append_name (r : ref) (key : string) (store : Store) : Store :=
  match names_at store r with
  | Some names => <[r := names_object (names ++ [key])]> store
  | None => store
  end.

Definition overwrite_space (r : ref) (space : StateActionProcessor.Space)
    (store : Store) : Store :=
  match space_at store r with
  | Some _ => <[r := space_object space]> store
  | None => store
  end.

(** *** The layer below a stage

    The three attributes [set_physical_system] reads of its argument; a
    read gives a reference (or [None], or a number for [tau]) and raises
    ([None]) where the object has no such attribute. *)
Class Attributes (T : Type) : Type := {
  attribute_action_space : T -> option (py ref);
  attribute_state_names : T -> option (py ref);
  attribute_tau : T -> option (py Q)
}.

(** *** The stage *)

Record StateActionProcessor (Inner RC : Type) : Type := mkStateActionProcessor {
  _physical_system : py Inner;
  _action_space : py ref;
  _state_space : py ref;
  _limits : py ref;
  _nominal_state : py ref;
  _state_names : py ref;
  _state_positions : gmap string nat;
  _tau : py Q;
  random_component : RC
}.
Arguments mkStateActionProcessor {Inner RC}.
Arguments _physical_system {Inner RC}.
Arguments _action_space {Inner RC}.
Arguments _state_space {Inner RC}.
Arguments _limits {Inner RC}.
Arguments _nominal_state {Inner RC}.
Arguments _state_names {Inner RC}.
Arguments _state_positions {Inner RC}.
Arguments _tau {Inner RC}.
Arguments random_component {Inner RC}.

Section Stage.
Context {Inner RC : Type} `{Attributes Inner}.
Abbreviation Stage := (StateActionProcessor Inner RC).

(** Assignments to one attribute. *)
Definition with_physical_system (inner : py Inner) (self : Stage) : Stage :=
  mkStateActionProcessor inner (_action_space self) (_state_space self)
    (_limits self) (_nominal_state self) (_state_names self)
    (_state_positions self) (_tau self) (random_component self).

Definition with_action_space (space : py ref) (self : Stage) : Stage :=
  mkStateActionProcessor (_physical_system self) space (_state_space self)
    (_limits self) (_nominal_state self) (_state_names self)
    (_state_positions self) (_tau self) (random_component self).

Definition with_state_names (names : py ref) (self : Stage) : Stage :=
  mkStateActionProcessor (_physical_system self) (_action_space self)
    (_state_space self) (_limits self) (_nominal_state self) names
    (_state_positions self) (_tau self) (random_component self).

Definition with_state_positions (positions : gmap string nat) (self : Stage) : Stage :=
  mkStateActionProcessor (_physical_system self) (_action_space self)
    (_state_space self) (_limits self) (_nominal_state self) (_state_names self)
    positions (_tau self) (random_component self).

Definition with_tau (tau_ : py Q) (self : Stage) : Stage :=
  mkStateActionProcessor (_physical_system self) (_action_space self)
    (_state_space self) (_limits self) (_nominal_state self) (_state_names self)
    (_state_positions self) tau_ (random_component self).

(** [self._physical_system.<attribute>]: an [AttributeError] when no
    inner layer is attached. *)
Definition inner_attribute {A : Type} (read : Inner -> option (py A))
    (self : Stage) : option (py A) :=
  match _physical_system self with
  | None => None
  | Some inner => read inner
  end.

(** The properties [action_space] and [state_names], and the inherited
    [tau]. *)
Definition action_space (self : Stage) : option (py ref) :=
  match _action_space self with
  | None => inner_attribute attribute_action_space self
  | Some space => Some (Some space)
  end.

Definition state_names (self : Stage) : option (py ref) :=
  match _state_names self with
  | None => inner_attribute attribute_state_names self
  | Some names => Some (Some names)
  end.

Definition tau (self : Stage) : option (py Q) := Some (_tau self).

(** The list a reader of [state_names] sees, and the space a reader of
    [action_space] sees, in a given store. *)
Definition shown_state_names (store : Store) (self : Stage) : option (list string) :=
  names ← state_names self; r ← names; names_at store r.

Definition shown_action_space (store : Store) (self : Stage)
    : option StateActionProcessor.Space :=
  space ← action_space self; r ← space; space_at store r.

(** [set_physical_system], statement by statement: the stage the call
    leaves, and the returned object, which is that stage, or [None] when an
    exception ended the call.  The assignments made before an exception
    stay.  Iterating over [self._state_names] raises when the attribute is
    [None] or not a list of names. *)
Definition set_physical_system (store : Store) (self : Stage) (physical_system : Inner)
    : Stage * option Stage :=
  let self := with_physical_system (Some physical_system) self in
  match attribute_action_space physical_system with
  | None => (self, None)
  | Some action_space_ =>
      let self := with_action_space action_space_ self in
      match attribute_state_names physical_system with
      | None => (self, None)
      | Some state_names_ =>
          let self := with_state_names state_names_ self in
          match _state_names self ≫= names_at store with
          | None => (self, None)
          | Some names =>
              let self :=
                with_state_positions (StateActionProcessor.state_positions 0 names ∅)
                  self in
              match attribute_tau physical_system with
              | None => (self, None)
              | Some tau_ =>
                  let self := with_tau tau_ self in
                  (self, Some self)
              end
          end
      end
  end.

(** The attributes of the argument can be read and its state names are a
    list. *)
Definition attachable (store : Store) (physical_system : Inner) : Prop :=
  is_Some (attribute_action_space physical_system) /\
  (exists (r : ref) (names : list string),
      attribute_state_names physical_system = Some (Some r) /\
      names_at store r = Some names) /\
  is_Some (attribute_tau physical_system).

(** A stage is itself a layer. *)
#[export] Instance stage_attributes : Attributes Stage := {
  attribute_action_space := action_space;
  attribute_state_names := state_names;
  attribute_tau := tau
}.
End Stage.

(** *** A physical system and a store, for the examples *)

(** Modelled from the spec: a Physical System exposes "read-only
    action_space, state_space, state_names, limits, nominal_state, tau";
    here the three attributes that [set_physical_system] reads. *)
Record Plant : Type := mkPlant {
  plant_action_space : py ref;
  plant_state_names : py ref;
  plant_tau : py Q
}.

#[export] Instance plant_attributes : Attributes Plant := {
  attribute_action_space := fun p => Some (plant_action_space p);
  attribute_state_names := fun p => Some (plant_state_names p);
  attribute_tau := fun p => Some (plant_tau p)
}.

(** Object 0 is an action space, object 1 the list of state names of a
    motor, object 2 a list with the same name twice, object 3 the empty
    tuple, objects 4 and 5 the action space and the state names of a second
    system. *)
Definition example_store : Store :=
  <[0%nat := space_object (StateActionProcessor.Box [-10] [10])]>
    (<[1%nat := names_object ["omega"; "i"]%string]>
       (<[2%nat := names_object ["i"; "i"]%string]>
          (<[3%nat := names_object []]>
             (<[4%nat := space_object (StateActionProcessor.Discrete 4)]>
                (<[5%nat := names_object ["u"]%string]> ∅))))).

Definition example_plant : Plant := mkPlant (Some 0%nat) (Some 1%nat) (Some (1 # 10)).

Definition duplicate_plant : Plant := mkPlant (Some 0%nat) (Some 2%nat) (Some (1 # 10)).

Definition second_plant : Plant := mkPlant (Some 4%nat) (Some 5%nat) (Some (1 # 100)).

(** Modelled from the spec: a stage as the constructor leaves it when no
    physical system is given; the base initialiser is called with
    [(None, None, (), None)], so that [_state_names] is the empty tuple and
    every other attribute is [None]. *)
Definition unattached_stage {Inner : Type} : StateActionProcessor Inner unit :=
  mkStateActionProcessor None None None None None (Some 3%nat) ∅ None tt.

(** The stage attached to the example plant, and the same stage attached
    anew to the second system. *)
Definition example_stage : StateActionProcessor Plant unit :=
  fst (set_physical_system example_store unattached_stage example_plant).

Definition reattached_stage : StateActionProcessor Plant unit :=
  fst (set_physical_system example_store example_stage second_plant).

(** The store after [example_plant.state_names.append("torque")] and after
    the bounds of its action space were overwritten. *)
Definition changed_store : Store :=
  overwrite_space 0%nat (StateActionProcessor.Box [-1] [1])
    (append_name 1%nat "torque" example_store).

End SharedAttributes.

(* ===================================================================== *)
(** * Part II: properties                                                  *)
(* ===================================================================== *)

(** ** numpy on rationals *)

Module NumpyFacts.
Import Numpy.
Local Open Scope Q_scope.

Lemma clip_le_max (a a_min a_max : Q) : clip a a_min a_max <= a_max.
Proof. unfold clip. apply Q.le_min_r. Qed.

Lemma clip_ge_min (a a_min a_max : Q) :
  a_min <= a_max -> a_min <= clip a a_min a_max.
Proof.
  intros Hord. unfold clip. apply Q.min_glb; [apply Q.le_max_r | exact Hord].
Qed.

Lemma clip_endpoint_le_max (a : endpoint) (a_min a_max : Q) :
  clip_endpoint a a_min a_max <= a_max.
Proof.
  destruct a; simpl.
  - apply Q.le_min_r.
  - apply clip_le_max.
  - apply Qle_refl.
Qed.

Lemma clip_endpoint_ge_min (a : endpoint) (a_min a_max : Q) :
  a_min <= a_max -> a_min <= clip_endpoint a a_min a_max.
Proof.
  intros Hord. destruct a; simpl.
  - apply Q.min_glb; [apply Qle_refl | exact Hord].
  - now apply clip_ge_min.
  - exact Hord.
Qed.

(** [np.sign] and [int] see the rational, not its representation. *)
Lemma sign_comp (x y : Q) : x == y -> sign x = sign y.
Proof.
  intros Heq. unfold sign. f_equal.
  unfold Qeq in Heq.
  destruct x as [xn xd], y as [yn yd]; simpl in *.
  destruct xn, yn; simpl in *; try reflexivity; try discriminate; lia.
Qed.

Lemma int_nonneg (x : Q) : 0 <= x -> int x = Qfloor x.
Proof.
  destruct x as [xn xd]. unfold Qle, int, Qfloor. simpl. intros Hx.
  apply Z.quot_div_nonneg; lia.
Qed.

Lemma int_opp (x : Q) : int (- x) = (- int x)%Z.
Proof.
  destruct x as [xn xd]. unfold int. simpl. apply Z.quot_opp_l. lia.
Qed.

Lemma int_comp (x y : Q) : x == y -> int x = int y.
Proof.
  intros Heq. destruct (Qlt_le_dec x 0) as [Hneg | Hpos].
  - assert (Hx : 0 <= - x) by lra. assert (Hy : 0 <= - y) by lra.
    assert (Hopp : int (- x) = int (- y)).
    { rewrite !int_nonneg by assumption. apply Qfloor_comp. lra. }
    rewrite !int_opp in Hopp. lia.
  - rewrite !int_nonneg by lra. now apply Qfloor_comp.
Qed.

Lemma remainder_comp (a b d : Q) : a == b -> remainder a d == remainder b d.
Proof.
  intros Heq. unfold remainder.
  assert (Hfl : Qfloor (a / d) = Qfloor (b / d)).
  { apply Qfloor_comp. now rewrite Heq. }
  rewrite Hfl, Heq. reflexivity.
Qed.

(** *** [np.linspace] from 0 in steps of [tau] *)

Lemma length_linspace (start stop : Q) (num : nat) :
  length (linspace start stop num) = num.
Proof. unfold linspace. now rewrite length_map, length_seq. Qed.

Lemma lookup_linspace_grid (tau_ : Q) (num i : nat) :
  (i < num)%nat ->
  exists t, linspace 0 (inject_Z (Z.of_nat num - 1) * tau_) num !! i = Some t
            /\ t == inject_Z (Z.of_nat i) * tau_.
Proof.
  intros Hi. unfold linspace.
  rewrite list_lookup_fmap, lookup_seq_lt by exact Hi. simpl.
  eexists. split; [reflexivity |].
  destruct (Z.ltb_spec 0 (Z.of_nat num - 1)) as [Hpos | Hle].
  - assert (Hnz : ~ inject_Z (Z.of_nat num - 1) == 0).
    { intros Hz. unfold Qeq in Hz. simpl in Hz. lia. }
    field. exact Hnz.
  - assert (i = 0%nat) by lia. subst i. simpl. ring.
Qed.

(** *** [np.roll] is a circular shift *)

Section Roll.
Context {A : Type}.
Implicit Types (a : list A) (shift : Z).

Lemma length_roll a shift : length (roll a shift) = length a.
Proof.
  unfold roll. rewrite length_app, length_drop, length_take. lia.
Qed.

Lemma roll_nil shift : roll (@nil A) shift = [].
Proof. reflexivity. Qed.

(** Position [j] of the rolled array holds the element that stood at
    [(j - shift) mod n]. *)
Lemma lookup_roll a shift (j : nat) :
  (j < length a)%nat ->
  roll a shift !! j
  = a !! Z.to_nat ((Z.of_nat j - shift) mod Z.of_nat (length a)).
Proof.
  intros Hj. unfold roll.
  destruct (Nat.eqb_spec (length a) 0) as [Hz | Hnz]; [lia |].
  set (n := length a) in *.
  assert (Hn : (0 < Z.of_nat n)%Z) by lia.
  pose proof (Z.mod_pos_bound shift (Z.of_nat n) Hn) as Hoff.
  set (off := (shift mod Z.of_nat n)%Z) in *.
  assert (Hsrc : ((Z.of_nat j - shift) mod Z.of_nat n
                  = (Z.of_nat j - off) mod Z.of_nat n)%Z).
  { unfold off. now rewrite Zminus_mod_idemp_r. }
  rewrite Hsrc.
  destruct (Z.lt_ge_cases (Z.of_nat j) off) as [Hlt | Hge].
  - rewrite lookup_app_l by (rewrite length_drop; fold n; lia).
    rewrite lookup_drop. f_equal.
    rewrite <- (Z_mod_plus_full _ 1), Z.mod_small by lia. lia.
  - rewrite lookup_app_r by (rewrite length_drop; fold n; lia).
    rewrite length_drop. fold n.
    rewrite lookup_take_lt by lia. f_equal.
    rewrite Z.mod_small by lia. lia.
Qed.

(** The element at [i] moves to position [(i + shift) mod n]. *)
Lemma lookup_roll_to a shift (i : nat) :
  (i < length a)%nat ->
  roll a shift !! Z.to_nat ((Z.of_nat i + shift) mod Z.of_nat (length a))
  = a !! i.
Proof.
  intros Hi.
  assert (Hn : (0 < Z.of_nat (length a))%Z) by lia.
  pose proof (Z.mod_pos_bound (Z.of_nat i + shift) _ Hn) as Hdst.
  rewrite lookup_roll by lia. f_equal.
  rewrite Z2Nat.id by lia.
  rewrite Zminus_mod_idemp_l.
  replace (Z.of_nat i + shift - shift)%Z with (Z.of_nat i) by lia.
  rewrite Z.mod_small by lia. lia.
Qed.

Lemma roll_map {B : Type} (f : A -> B) a shift :
  roll (f <$> a) shift = f <$> roll a shift.
Proof.
  unfold roll. rewrite length_fmap, fmap_app, fmap_drop, fmap_take. reflexivity.
Qed.
End Roll.

End NumpyFacts.

(** ** StepReferenceGenerator *)

Module StepReferenceGeneratorFacts.
Import Numpy NumpyFacts StepReferenceGenerator.
Local Open Scope Q_scope.

Section Segment.
Context {RNG : Type} `{RandomSource RNG}.
Implicit Types self : StepReferenceGenerator RNG.

Lemma unrolled_square_wave frequency high_low_ratio tau_ n :
  unrolled frequency high_low_ratio tau_ n
  = map (square_wave frequency high_low_ratio tau_) (seq 0 n).
Proof.
  apply list_eq. intros i. unfold unrolled.
  rewrite !list_lookup_fmap.
  destruct (Nat.lt_ge_cases i n) as [Hlt | Hge].
  - destruct (lookup_linspace_grid tau_ n i Hlt) as (t & Ht & Hgrid).
    rewrite Ht, lookup_seq_lt by exact Hlt. simpl. f_equal.
    unfold square_wave. apply sign_comp.
    now rewrite (remainder_comp _ _ (1 / frequency) Hgrid).
  - rewrite lookup_seq_ge by exact Hge.
    rewrite (lookup_ge_None_2 (linspace _ _ _)); [reflexivity |].
    now rewrite length_linspace.
Qed.

(** What a successful [_reset_reference] leaves behind, in terms of the
    five draws. *)
Lemma _reset_reference_Some self self' :
  _reset_reference self = Some self' ->
  let d := draws self in
  ~ drawn_frequency d == 0 /\ ~ tau self == 0 /\
  _amplitude self' = drawn_amplitude d /\
  _frequency self' = drawn_frequency d /\
  _offset self' = drawn_offset d /\
  _amplitude_range self' = _amplitude_range self /\
  _offset_range self' = _offset_range self /\
  _limit_margin self' = _limit_margin self /\
  tau self' = tau self /\
  _current_episode_length self' = _current_episode_length self /\
  _reference self'
  = map (fun r => clip r (fst (_limit_margin self)) (snd (_limit_margin self)))
      (map (fun xi => drawn_amplitude d * xi + drawn_offset d)
         (roll (unrolled (drawn_frequency d) (drawn_high_low_ratio d) (tau self)
                  (_current_episode_length self))
               (code_shift (drawn_frequency d) (tau self) (drawn_phase d)))).
Proof.
  unfold _reset_reference, draws, unrolled, code_shift.
  destruct (_get_current_value (_amplitude_range self) (random_generator self))
    as [amplitude rg1].
  destruct (_get_current_value (_frequency_range self) rg1) as [frequency rg2].
  destruct (_get_current_value _ rg2) as [offset rg3].
  destruct (triangular 0 (1 # 2) 1 rg3) as [high_low_ratio rg4].
  destruct (uniform rg4) as [phase rg5].
  destruct (Qeq_bool frequency 0) eqn:Hf; [discriminate |].
  destruct (Qeq_bool (tau self) 0) eqn:Ht; [discriminate |].
  intros [= <-]. simpl.
  apply Qeq_bool_neq in Hf. apply Qeq_bool_neq in Ht.
  repeat split; assumption.
Qed.

Lemma length_reference self self' :
  _reset_reference self = Some self' ->
  length (_reference self') = _current_episode_length self.
Proof.
  intros Hres. apply _reset_reference_Some in Hres.
  destruct Hres as (_ & _ & _ & _ & _ & _ & _ & _ & _ & _ & ->).
  rewrite !length_map, length_roll. unfold unrolled.
  now rewrite !length_map, length_linspace.
Qed.
End Segment.

Section SegmentClaims.
Context {RNG : Type} `{RandomSource RNG}.
Implicit Types self : StepReferenceGenerator RNG.

(** C1.  Every sample of a segment generated by [_reset_reference] lies
    between the two ends of the limit margin, and for a limit margin
    [low <= high] that is [limit_margin_low <= reference[i] <= limit_margin_high]:
    the stored array is the clipped one. *)
Theorem reference_within_limit_margin self self' :
  _reset_reference self = Some self' ->
  Forall (fun r =>
            let low := fst (_limit_margin self') in
            let high := snd (_limit_margin self') in
            (Qmin low high <= r <= Qmax low high) /\
            (low <= high -> low <= r <= high))
         (_reference self').
Proof.
  intros Hres. apply _reset_reference_Some in Hres.
  destruct Hres as (_ & _ & _ & _ & _ & _ & _ & -> & _ & _ & ->).
  apply Forall_fmap, Forall_forall. intros r _. simpl. split.
  - split.
    + unfold clip. apply Q.min_le_compat_r, Q.le_max_r.
    + apply Qle_trans with (snd (_limit_margin self));
        [apply clip_le_max | apply Q.le_max_r].
  - intros Hord. split; [now apply clip_ge_min | apply clip_le_max].
Qed.

End SegmentClaims.

(** *** The clamps on amplitude and offset *)

Section Clamps.
Context {RNG : Type} `{RandomSource RNG}.
Implicit Types self : StepReferenceGenerator RNG.

Lemma set_modules_clamps (u : Uninitialized RNG) (tau_ : Q) (limit_margin : Q * Q) :
  fst limit_margin <= snd limit_margin ->
  amplitude_range_clamped (set_modules u tau_ limit_margin).
Proof.
  intros Hord. unfold amplitude_range_clamped, set_modules, clip_endpoints. simpl.
  assert (Hhalf : 0 <= (snd limit_margin - fst limit_margin) / 2).
  { assert (Heq : (snd limit_margin - fst limit_margin) / 2
                  == (snd limit_margin - fst limit_margin) * (1 # 2)) by field.
    rewrite Heq. lra. }
  repeat split;
    solve [ now apply clip_endpoint_ge_min | apply clip_endpoint_le_max ].
Qed.

Lemma generates_keeps_binding (start : StepReferenceGenerator RNG) self :
  generates start self ->
  _amplitude_range self = _amplitude_range start /\
  _limit_margin self = _limit_margin start.
Proof.
  induction 1 as [| self self' _ [IHr IHm] Hres]; [now split |].
  apply _reset_reference_Some in Hres.
  destruct Hres as (_ & _ & _ & _ & _ & Hr & _ & Hm & _).
  split; congruence.
Qed.

Lemma between_endpoints (lo hi a b v : Q) :
  a <= lo <= b -> a <= hi <= b -> Qmin lo hi <= v <= Qmax lo hi -> a <= v <= b.
Proof.
  intros [Hlo1 Hlo2] [Hhi1 Hhi2] [Hv1 Hv2]. split.
  - apply Qle_trans with (Qmin lo hi); [now apply Q.min_glb | exact Hv1].
  - apply Qle_trans with (Qmax lo hi); [exact Hv2 | now apply Q.max_lub].
Qed.

Hypothesis draw_in_range : draws_within_range RNG.

Lemma drawn_amplitude_clamped self :
  amplitude_range_clamped self ->
  0 <= drawn_amplitude (draws self)
    <= (snd (_limit_margin self) - fst (_limit_margin self)) / 2.
Proof.
  intros [Hlo Hhi]. unfold draws.
  pose proof (draw_in_range (fst (_amplitude_range self))
                (snd (_amplitude_range self)) (random_generator self)) as Hdraw.
  rewrite <- surjective_pairing in Hdraw.
  destruct (_get_current_value (_amplitude_range self) (random_generator self))
    as [amplitude rg1].
  destruct (_get_current_value (_frequency_range self) rg1) as [frequency rg2].
  destruct (_get_current_value _ rg2) as [offset rg3].
  destruct (triangular 0 (1 # 2) 1 rg3) as [high_low_ratio rg4].
  destruct (uniform rg4) as [phase rg5]. simpl in *.
  exact (between_endpoints _ _ _ _ _ Hlo Hhi Hdraw).
Qed.

Lemma drawn_offset_clamped self :
  amplitude_range_clamped self ->
  fst (_limit_margin self) + drawn_amplitude (draws self)
    <= drawn_offset (draws self)
    <= snd (_limit_margin self) - drawn_amplitude (draws self).
Proof.
  intros Hclamped.
  pose proof (drawn_amplitude_clamped self Hclamped) as Hamp.
  unfold draws in *.
  destruct (_get_current_value (_amplitude_range self) (random_generator self))
    as [amplitude rg1].
  destruct (_get_current_value (_frequency_range self) rg1) as [frequency rg2].
  match goal with
  | |- context [_get_current_value ?r rg2] =>
      pose proof (draw_in_range (fst r) (snd r) rg2) as Hdraw;
      rewrite <- surjective_pairing in Hdraw;
      destruct (_get_current_value r rg2) as [offset rg3]
  end.
  destruct (triangular 0 (1 # 2) 1 rg3) as [high_low_ratio rg4].
  destruct (uniform rg4) as [phase rg5]. simpl in *.
  assert (Hord : fst (_limit_margin self) + amplitude
                 <= snd (_limit_margin self) - amplitude).
  { destruct Hamp as [_ Hhalf].
    assert (Heq : (snd (_limit_margin self) - fst (_limit_margin self)) / 2
                  == (snd (_limit_margin self) - fst (_limit_margin self)) * (1 # 2))
      by field.
    rewrite Heq in Hhalf. lra. }
  eapply between_endpoints; [| | exact Hdraw]; simpl;
    (split; [now apply clip_ge_min | apply clip_le_max]).
Qed.

(** C4.  After [set_modules] with a limit margin [low <= high], every
    amplitude that [_reset_reference] draws, in any later segment and for
    any [amplitude_range] given to the constructor (the unset default
    included), satisfies [0 <= amplitude <= (high - low) / 2]. *)
Theorem amplitude_at_most_half_span
    (u : Uninitialized RNG) (tau_ : Q) (limit_margin : Q * Q) self self' :
  fst limit_margin <= snd limit_margin ->
  generates (set_modules u tau_ limit_margin) self ->
  _reset_reference self = Some self' ->
  0 <= _amplitude self' <= (snd limit_margin - fst limit_margin) / 2.
Proof.
  intros Hord Hgen Hres.
  pose proof (set_modules_clamps u tau_ limit_margin Hord) as Hstart.
  destruct (generates_keeps_binding _ _ Hgen) as [Hr Hm].
  assert (Hclamped : amplitude_range_clamped self).
  { unfold amplitude_range_clamped in *. now rewrite Hr, Hm. }
  apply _reset_reference_Some in Hres.
  destruct Hres as (_ & _ & -> & _).
  pose proof (drawn_amplitude_clamped self Hclamped) as Hamp.
  now rewrite Hm in Hamp.
Qed.

End Clamps.

(** *** The claims on the replaying source *)

Lemma replay_uniform_unit (tape : list nat) :
  0 <= fst (replay_uniform tape) /\ fst (replay_uniform tape) < 1.
Proof.
  destruct tape as [| k rest]; [simpl; lra |].
  pose proof (Nat.mod_upper_bound k 100 ltac:(lia)) as Hk.
  unfold replay_uniform, fst.
  set (m := (k mod 100)%nat) in *.
  unfold Qdiv, Qmult, Qinv, Qle, Qlt. simpl. lia.
Qed.

Lemma replay_draws_within_range : draws_within_range (list nat).
Proof.
  intros lo hi tape. simpl. unfold replay_get_current_value.
  destruct (replay_uniform_unit tape) as [H0 H1].
  destruct (replay_uniform tape) as [u rest]. simpl in *.
  destruct (Qlt_le_dec hi lo) as [Hrev | Hord].
  - rewrite (Q.min_r lo hi), (Q.max_l lo hi) by lra. split; nra.
  - rewrite (Q.min_l lo hi), (Q.max_r lo hi) by lra. split; nra.
Qed.

Lemma reference_within_limit_margin_example :
  _reset_reference default_generator = Some default_segment /\
  Forall (fun r => (Qmin (-1) 1 <= r <= Qmax (-1) 1) /\ (-1 <= 1 -> -1 <= r <= 1))
         (_reference default_segment).
Proof.
  assert (Hres : _reset_reference default_generator = Some default_segment)
    by (vm_compute; reflexivity).
  split; [exact Hres |].
  exact (reference_within_limit_margin default_generator default_segment Hres).
Defined.

(** C3, as stated, fails: with frequency 1, [tau = 1/4] and phase 0.7 the
    quotient is 2.8, the code shifts by [int(2.8) = 2] samples and not by
    [round(2.8) = 3], and a shift by 3 gives another segment. *)
Lemma shift_is_not_rounded :
  let d := draws example_generator in
  _reset_reference example_generator = Some example_segment /\
  code_shift (_frequency example_segment) (tau example_segment) (drawn_phase d) = 2%Z /\
  spec_shift (_frequency example_segment) (tau example_segment) (drawn_phase d) = 3%Z /\
  ~ Forall2 Qeq
      (_reference example_segment)
      (rederive (_amplitude example_segment) (_frequency example_segment)
         (_offset example_segment) (drawn_high_low_ratio d) (tau example_segment)
         (_limit_margin example_segment) (_current_episode_length example_segment)
         (spec_shift (_frequency example_segment) (tau example_segment)
            (drawn_phase d))).
Proof.
  cbv zeta. repeat split; try (vm_compute; reflexivity).
  intros Hall. vm_compute in Hall.
  inversion Hall as [| r s rs ss Hhead _]. discriminate Hhead.
Qed.

Lemma amplitude_at_most_half_span_example :
  _reset_reference default_generator = Some default_segment /\
  0 <= _amplitude default_segment <= (1 - -1) / 2.
Proof.
  split; [vm_compute; reflexivity |].
  apply (amplitude_at_most_half_span replay_draws_within_range
           (__init__ None (1, 10) None 4 [50; 20; 90; 40; 70]%nat) (1 # 4) (-1, 1)
           default_generator default_segment).
  - vm_compute. discriminate.
  - apply generates_start.
  - vm_compute. reflexivity.
Defined.


(** *** Further properties of the generator *)

Lemma sign_negative (x : Q) : x < 0 -> sign x = -1.
Proof.
  unfold sign, Qlt. destruct x as [[| p | p] d]; simpl; intros Hneg;
    solve [reflexivity | lia].
Qed.

Lemma sign_nonnegative (x : Q) : 0 <= x -> sign x = 0 \/ sign x = 1.
Proof.
  unfold sign, Qle. destruct x as [[| p | p] d]; simpl; intros Hpos;
    solve [now left | now right | lia].
Qed.

Lemma clip_inside (a a_min a_max : Q) :
  a_min <= a <= a_max -> clip a a_min a_max == a.
Proof.
  intros [Hlow Hhigh]. unfold clip.
  assert (Hmax : Qmax a a_min == a) by now apply Q.max_l.
  rewrite Q.min_l; [exact Hmax |]. now rewrite Hmax.
Qed.

Lemma clip_comp (a b a_min a_max : Q) :
  a == b -> clip a a_min a_max == clip b a_min a_max.
Proof.
  intros Heq. unfold clip.
  apply Q.min_compat; [| reflexivity]. now apply Q.max_compat.
Qed.

(** [frequency * (t % (1 / frequency))] is the fractional part of
    [frequency * t], whatever the sign of the frequency. *)
Lemma phase_position_frac (frequency t : Q) :
  ~ frequency == 0 ->
  frequency * remainder t (1 / frequency)
  == frequency * t - inject_Z (Qfloor (frequency * t)).
Proof.
  intros Hf. unfold remainder.
  assert (Hfl : Qfloor (t / (1 / frequency)) = Qfloor (frequency * t)).
  { apply Qfloor_comp. field. repeat split; solve [exact Hf | discriminate]. }
  rewrite Hfl. field. exact Hf.
Qed.

Lemma fractional_part_unit (y : Q) : 0 <= y - inject_Z (Qfloor y) < 1.
Proof.
  pose proof (Qfloor_le y) as Hle. pose proof (Qlt_floor y) as Hlt.
  rewrite inject_Z_plus in Hlt. change (inject_Z 1) with 1 in Hlt. split; lra.
Qed.

Lemma Forall_roll {A : Type} (P : A -> Prop) (a : list A) (shift : Z) :
  Forall P a -> Forall P (roll a shift).
Proof.
  intros Hall. unfold roll. apply Forall_app.
  split; [now apply Forall_drop | now apply Forall_take].
Qed.

Section SegmentCoverage.
Context {RNG : Type} `{RandomSource RNG}.
Implicit Types self : StepReferenceGenerator RNG.


(** With a duty ratio of 0, which [triangular(0, 0.5, 1)] can return, the
    wave is never low: every sample of the segment is the clipped [offset],
    taken where the position within the period is exactly 0, or the
    clipped [offset + amplitude]. *)
Theorem zero_ratio_is_never_low self self' :
  _reset_reference self = Some self' ->
  drawn_high_low_ratio (draws self) <= 0 ->
  Forall (fun r =>
            let low := fst (_limit_margin self') in
            let high := snd (_limit_margin self') in
            r == clip (_offset self') low high \/
            r == clip (_offset self' + _amplitude self') low high)
         (_reference self').
Proof.
  intros Hres Hratio. apply _reset_reference_Some in Hres.
  destruct Hres as (Hf & _ & -> & _ & -> & _ & _ & -> & _ & _ & ->).
  set (d := draws self) in *.
  apply Forall_fmap, Forall_fmap, Forall_roll.
  rewrite unrolled_square_wave. apply Forall_fmap, Forall_forall.
  intros i _. simpl. unfold square_wave.
  match goal with |- context [sign ?x] =>
    assert (Hpos : 0 <= x);
    [| destruct (sign_nonnegative x Hpos) as [-> | ->] ]
  end.
  - rewrite (phase_position_frac _ _ Hf).
    pose proof (fractional_part_unit
                  (drawn_frequency d * (inject_Z (Z.of_nat i) * tau self))).
    lra.
  - left. apply clip_comp. ring.
  - right. apply clip_comp. ring.
Qed.

(** One call of [_reset_reference] after another, the ranges, the limit
    margin, the step duration and the episode length stay what they were:
    only the drawn parameters, the segment and the random generator
    change. *)
Theorem segments_keep_configuration (start : StepReferenceGenerator RNG) self :
  generates start self ->
  _amplitude_range self = _amplitude_range start /\
  _frequency_range self = _frequency_range start /\
  _offset_range self = _offset_range start /\
  _limit_margin self = _limit_margin start /\
  tau self = tau start /\
  _current_episode_length self = _current_episode_length start.
Proof.
  induction 1 as [| self self' _ IH Hres]; [repeat split |].
  assert (Hfrequency : _frequency_range self' = _frequency_range self).
  { revert Hres. unfold _reset_reference.
    destruct (_get_current_value (_amplitude_range self) (random_generator self))
      as [amplitude rg1].
    destruct (_get_current_value (_frequency_range self) rg1) as [frequency rg2].
    destruct (_get_current_value _ rg2) as [offset rg3].
    destruct (triangular 0 (1 # 2) 1 rg3) as [high_low_ratio rg4].
    destruct (uniform rg4) as [phase rg5].
    destruct (Qeq_bool frequency 0); [discriminate |].
    destruct (Qeq_bool (tau self) 0); [discriminate |].
    now intros [= <-]. }
  apply _reset_reference_Some in Hres.
  destruct Hres as (_ & _ & _ & _ & _ & Ha & Ho & Hm & Ht & Hn & _).
  destruct IH as (IHa & IHf & IHo & IHm & IHt & IHn).
  repeat split; congruence.
Qed.
End SegmentCoverage.

Section BindingCoverage.
Context {RNG : Type} `{RandomSource RNG}.
Implicit Types self : StepReferenceGenerator RNG.

(** Under the defaults of the constructor, [set_modules] makes the
    amplitude range [0, half the limit span] and the offset range the limit
    margin itself. *)
Theorem default_ranges_span_the_margin
    (frequency_range : Q * Q) (n : nat) (rng : RNG) (tau_ : Q) (limit_margin : Q * Q) :
  fst limit_margin <= snd limit_margin ->
  let self := set_modules (__init__ None frequency_range None n rng) tau_ limit_margin in
  fst (_amplitude_range self) == 0 /\
  snd (_amplitude_range self) == (snd limit_margin - fst limit_margin) / 2 /\
  fst (_offset_range self) == fst limit_margin /\
  snd (_offset_range self) == snd limit_margin.
Proof.
  intros Hord. simpl.
  assert (Hhalf : 0 <= (snd limit_margin - fst limit_margin) / 2).
  { assert (Heq : (snd limit_margin - fst limit_margin) / 2
                  == (snd limit_margin - fst limit_margin) * (1 # 2)) by field.
    rewrite Heq. lra. }
  split; [| split; [| split]].
  - apply clip_inside. split; [apply Qle_refl | exact Hhalf].
  - reflexivity.
  - now apply Q.min_l.
  - reflexivity.
Qed.

(** Ranges given to the constructor that lie inside the bounds are used as
    given: [set_modules] cuts only what exceeds half the limit span or the
    limit margin. *)
Theorem set_modules_keeps_ranges_inside_bounds
    (a b c d : Q) (frequency_range : Q * Q) (n : nat) (rng : RNG)
    (tau_ : Q) (limit_margin : Q * Q) :
  0 <= a <= (snd limit_margin - fst limit_margin) / 2 ->
  0 <= b <= (snd limit_margin - fst limit_margin) / 2 ->
  fst limit_margin <= c <= snd limit_margin ->
  fst limit_margin <= d <= snd limit_margin ->
  let self :=
    set_modules
      (__init__ (Some (Finite a, Finite b)) frequency_range
                (Some (Finite c, Finite d)) n rng)
      tau_ limit_margin in
  fst (_amplitude_range self) == a /\ snd (_amplitude_range self) == b /\
  fst (_offset_range self) == c /\ snd (_offset_range self) == d.
Proof.
  intros Ha Hb Hc Hd. simpl. split; [| split; [| split]]; now apply clip_inside.
Qed.

End BindingCoverage.

(** *** The further properties on the replaying source *)


Lemma zero_ratio_is_never_low_example :
  _reset_reference zero_ratio_generator = Some zero_ratio_segment /\
  Forall (fun r =>
            r == clip (_offset zero_ratio_segment) (-1) 1 \/
            r == clip (_offset zero_ratio_segment + _amplitude zero_ratio_segment) (-1) 1)
         (_reference zero_ratio_segment).
Proof.
  assert (Hres : _reset_reference zero_ratio_generator = Some zero_ratio_segment)
    by (vm_compute; reflexivity).
  split; [exact Hres |].
  apply (zero_ratio_is_never_low zero_ratio_generator zero_ratio_segment Hres).
  vm_compute. discriminate.
Defined.

Lemma segments_keep_configuration_example :
  _amplitude_range default_segment = _amplitude_range default_generator /\
  _frequency_range default_segment = _frequency_range default_generator /\
  _offset_range default_segment = _offset_range default_generator /\
  _limit_margin default_segment = _limit_margin default_generator /\
  tau default_segment = tau default_generator /\
  _current_episode_length default_segment = _current_episode_length default_generator.
Proof.
  apply (segments_keep_configuration default_generator default_segment).
  apply (generates_segment default_generator default_generator default_segment).
  - apply generates_start.
  - vm_compute. reflexivity.
Defined.

Lemma default_ranges_span_the_margin_example :
  fst (_amplitude_range default_generator) == 0 /\
  snd (_amplitude_range default_generator) == (1 - -1) / 2 /\
  fst (_offset_range default_generator) == -1 /\
  snd (_offset_range default_generator) == 1.
Proof.
  apply (default_ranges_span_the_margin (1, 10) 4 [50; 20; 90; 40; 70]%nat
           (1 # 4) (-1, 1)).
  vm_compute. discriminate.
Defined.

Lemma set_modules_keeps_ranges_inside_bounds_example :
  fst (_amplitude_range example_generator) == 1 /\
  snd (_amplitude_range example_generator) == 1 /\
  fst (_offset_range example_generator) == 0 /\
  snd (_offset_range example_generator) == 0.
Proof.
  apply (set_modules_keeps_ranges_inside_bounds 1 1 0 0 (1, 1) 4
           [0; 0; 0; 40; 70]%nat (1 # 4) (-1, 1));
    split; vm_compute; discriminate.
Defined.

(** A physical system with a step duration of zero: no segment. *)
Example zero_step_duration_raises :
  _reset_reference
    (set_modules (__init__ None (1, 10) None 4 [50; 20; 90; 40; 70]%nat) 0 (-1, 1))
  = None.
Proof. vm_compute. reflexivity. Qed.

End StepReferenceGeneratorFacts.

(** ** StepReferenceGenerator on doubles *)

Module StepReferenceGenerator64Facts.
Import PrimFloat Numpy64 NumpyFacts StepReferenceGenerator64.
Import StepReferenceGenerator (shifted_from, shifted_to).
Local Open Scope float_scope.
#[local] Set Warnings "-inexact-float".

Lemma length_linspace_on_doubles (start stop : float) (num : nat) :
  length (linspace start stop num) = num.
Proof.
  unfold linspace.
  destruct (1 <? num)%nat; [rewrite length_insert |];
    (destruct (0 <? Z.of_nat num - 1)%Z;
     [destruct (_ =? 0) |]; now rewrite !length_map, length_seq).
Qed.

Lemma length_time_grid (tau_ : float) (n : nat) : length (time_grid tau_ n) = n.
Proof. apply length_linspace_on_doubles. Qed.

Lemma lookup_time_grid (tau_ : float) (n i : nat) :
  (i < n)%nat -> exists t, time_grid tau_ n !! i = Some t.
Proof.
  intros Hi. apply lookup_lt_is_Some_2. now rewrite length_time_grid.
Qed.

Section Segment.
Context {RNG : Type} `{RandomSource RNG}.
Implicit Types self : StepReferenceGenerator RNG.

(** The array [x] of [_reset_reference] just before [np.roll]. *)
Lemma lookup_unrolled (frequency high_low_ratio tau_ : float) (n i : nat) :
  (sign <$> ((fun xi => xi - high_low_ratio)
     <$> ((fun ti => frequency * remainder ti (1 / frequency)) <$> time_grid tau_ n))) !! i
  = (fun t => sign (frequency * remainder t (1 / frequency) - high_low_ratio))
      <$> time_grid tau_ n !! i.
Proof.
  rewrite !list_lookup_fmap. now destruct (time_grid tau_ n !! i).
Qed.

(** Where the drawn frequency and the step duration are not zero and the
    product [(1 / frequency / tau) * phase] is finite, the call returns,
    and leaves the drawn parameters and the rolled, scaled and clipped
    wave. *)
Lemma _reset_reference_Returned self (shift : Z) :
  let d := draws self in
  (drawn_frequency d =? 0) = false ->
  (tau self =? 0) = false ->
  code_shift (drawn_frequency d) (tau self) (drawn_phase d) = Some shift ->
  exists rg,
    _reset_reference self
    = (Returned,
       assigned self (drawn_amplitude d) (drawn_frequency d) (drawn_offset d) rg
         ((fun r => clip r (fst (_limit_margin self)) (snd (_limit_margin self)))
            <$> ((fun xi => drawn_amplitude d * xi + drawn_offset d)
                   <$> Numpy.roll
                         (sign <$> ((fun xi => xi - drawn_high_low_ratio d)
                            <$> ((fun ti => drawn_frequency d
                                            * remainder ti (1 / drawn_frequency d))
                                   <$> time_grid (tau self) (_current_episode_length self))))
                         shift))).
Proof.
  unfold _reset_reference, draws, code_shift, time_grid.
  destruct (_get_current_value (_amplitude_range self) (random_generator self))
    as [amplitude rg1].
  destruct (_get_current_value (_frequency_range self) rg1) as [frequency rg2].
  destruct (_get_current_value _ rg2) as [offset rg3].
  destruct (triangular 0 0.5 1 rg3) as [high_low_ratio rg4].
  destruct (uniform rg4) as [phase rg5]. simpl.
  intros -> -> ->. exists rg5. reflexivity.
Qed.

Lemma sample_at_source self (shift : Z) (j : nat) (t : float) (d : Draws) :
  let n := _current_episode_length self in
  (j < n)%nat ->
  time_grid (tau self) n !! shifted_from n shift j = Some t ->
  ((fun r => clip r (fst (_limit_margin self)) (snd (_limit_margin self)))
     <$> ((fun xi => drawn_amplitude d * xi + drawn_offset d)
            <$> Numpy.roll
                  (sign <$> ((fun xi => xi - drawn_high_low_ratio d)
                     <$> ((fun ti => drawn_frequency d
                                     * remainder ti (1 / drawn_frequency d))
                            <$> time_grid (tau self) n)))
                  shift)) !! j
  = Some (sample (drawn_amplitude d) (drawn_frequency d) (drawn_offset d)
            (drawn_high_low_ratio d) (_limit_margin self) t).
Proof.
  intros n Hj Ht.
  rewrite !list_lookup_fmap.
  rewrite lookup_roll by (now rewrite !length_fmap, length_time_grid).
  rewrite !length_fmap, length_time_grid.
  fold (shifted_from n shift j).
  rewrite lookup_unrolled, Ht. reflexivity.
Qed.
End Segment.

Section SegmentClaims.
Context {RNG : Type} `{RandomSource RNG}.
Implicit Types self : StepReferenceGenerator RNG.

(** C2, as the code has it.  For the drawn parameters (amplitude,
    frequency, offset, duty ratio, phase), [tau], the segment length [n]
    and the limit margin, with a drawn frequency and a [tau] that are not
    zero and a finite shift [int((1 / frequency / tau) * phase)], the call
    returns, keeps the three drawn parameters, and the segment it stores
    has [n] samples, of which sample [j] is the formula
    [clip(amplitude * sign(frequency * (t mod 1/frequency) - duty_ratio) + offset)]
    at the point [t] of the time grid [np.linspace(0, (n - 1) * tau, n)]
    with index [(j - shift) mod n], every operation on doubles. *)
Theorem reference_rederived_on_linspace_grid self (shift : Z) :
  let d := draws self in
  let n := _current_episode_length self in
  (drawn_frequency d =? 0) = false ->
  (tau self =? 0) = false ->
  code_shift (drawn_frequency d) (tau self) (drawn_phase d) = Some shift ->
  exists self',
    _reset_reference self = (Returned, self') /\
    _amplitude self' = drawn_amplitude d /\
    _frequency self' = drawn_frequency d /\
    _offset self' = drawn_offset d /\
    length (_reference self') = n /\
    forall j : nat, (j < n)%nat ->
      exists t,
        time_grid (tau self) n !! shifted_from n shift j = Some t /\
        _reference self' !! j
        = Some (sample (drawn_amplitude d) (drawn_frequency d) (drawn_offset d)
                  (drawn_high_low_ratio d) (_limit_margin self) t).
Proof.
  intros d n Hf Ht Hshift.
  destruct (_reset_reference_Returned self shift Hf Ht Hshift) as [rg Hres].
  eexists. split; [exact Hres |]. simpl.
  split; [reflexivity |]. split; [reflexivity |]. split; [reflexivity |].
  split.
  - now rewrite !length_fmap, length_roll, !length_fmap, length_time_grid.
  - intros j Hj.
    assert (Hsrc : (shifted_from n shift j < n)%nat).
    { unfold shifted_from.
      pose proof (Z.mod_pos_bound (Z.of_nat j - shift) (Z.of_nat n)). lia. }
    destruct (lookup_time_grid (tau self) n _ Hsrc) as [t Hgrid].
    exists t. split; [exact Hgrid |].
    now apply sample_at_source.
Qed.

(** C3, as the code has it.  The square wave is shifted circularly by
    [int((1 / frequency / tau) * phase)] samples, the product formed in
    this order on doubles and truncated toward zero: the sample computed
    for point [i] of the time grid is stored at position
    [(i + shift) mod n]. *)
Theorem reference_shifted_by_truncated_product self (shift : Z) (i : nat) :
  let d := draws self in
  let n := _current_episode_length self in
  (drawn_frequency d =? 0) = false ->
  (tau self =? 0) = false ->
  int (1 / drawn_frequency d / tau self * drawn_phase d) = Some shift ->
  (i < n)%nat ->
  exists self' t,
    _reset_reference self = (Returned, self') /\
    time_grid (tau self) n !! i = Some t /\
    _reference self' !! shifted_to n shift i
    = Some (sample (drawn_amplitude d) (drawn_frequency d) (drawn_offset d)
              (drawn_high_low_ratio d) (_limit_margin self) t).
Proof.
  intros d n Hf Ht Hshift Hi.
  destruct (_reset_reference_Returned self shift Hf Ht Hshift) as [rg Hres].
  destruct (lookup_time_grid (tau self) n i Hi) as [t Hgrid].
  eexists. exists t. split; [exact Hres |]. split; [exact Hgrid |]. simpl.
  assert (Hn : (0 < Z.of_nat n)%Z) by lia.
  pose proof (Z.mod_pos_bound (Z.of_nat i + shift) _ Hn) as Hdst.
  apply sample_at_source.
  - unfold shifted_to. fold n. lia.
  - replace (shifted_from (_current_episode_length self) shift (shifted_to n shift i))
      with i; [exact Hgrid |].
    unfold shifted_from, shifted_to. fold n.
    rewrite Z2Nat.id by lia.
    rewrite Zminus_mod_idemp_l.
    replace (Z.of_nat i + shift - shift)%Z with (Z.of_nat i) by lia.
    rewrite Z.mod_small by lia. lia.
Qed.
End SegmentClaims.

(** *** The claims on the replaying source *)

Lemma reference_rederived_on_linspace_grid_example :
  draws quarter_generator = mkDraws 1 1 0 0.4 0.7 /\
  code_shift 1 (tau quarter_generator) 0.7 = Some 2%Z /\
  exists self',
    _reset_reference quarter_generator = (Returned, self') /\
    _amplitude self' = drawn_amplitude (draws quarter_generator) /\
    _frequency self' = drawn_frequency (draws quarter_generator) /\
    _offset self' = drawn_offset (draws quarter_generator) /\
    length (_reference self') = _current_episode_length quarter_generator /\
    forall j : nat, (j < _current_episode_length quarter_generator)%nat ->
      exists t,
        time_grid (tau quarter_generator) (_current_episode_length quarter_generator)
          !! shifted_from (_current_episode_length quarter_generator) 2 j = Some t /\
        _reference self' !! j
        = Some (sample (drawn_amplitude (draws quarter_generator))
                  (drawn_frequency (draws quarter_generator))
                  (drawn_offset (draws quarter_generator))
                  (drawn_high_low_ratio (draws quarter_generator))
                  (_limit_margin quarter_generator) t).
Proof.
  split; [vm_compute; reflexivity |]. split; [vm_compute; reflexivity |].
  apply (reference_rederived_on_linspace_grid quarter_generator 2%Z);
    vm_compute; reflexivity.
Defined.

Lemma reference_shifted_by_truncated_product_example :
  draws truncating_generator = mkDraws 1 1 0 0.4 0.29 /\
  int (1 / 1 / tau truncating_generator * 0.29) = Some 28%Z /\
  exists self' t,
    _reset_reference truncating_generator = (Returned, self') /\
    time_grid (tau truncating_generator) (_current_episode_length truncating_generator)
      !! 0%nat = Some t /\
    _reference self'
      !! shifted_to (_current_episode_length truncating_generator) 28 0
    = Some (sample (drawn_amplitude (draws truncating_generator))
              (drawn_frequency (draws truncating_generator))
              (drawn_offset (draws truncating_generator))
              (drawn_high_low_ratio (draws truncating_generator))
              (_limit_margin truncating_generator) t).
Proof.
  split; [vm_compute; reflexivity |]. split; [vm_compute; reflexivity |].
  apply (reference_shifted_by_truncated_product truncating_generator 28%Z 0%nat);
    vm_compute; solve [reflexivity | lia].
Defined.

(** C2, as stated, fails.  Seven samples 0.2 s apart at frequency 5, duty
    ratio 0.4 and phase 0 (no shift): point 5 of the time grid of the code
    is [1.0000000000000002], at which the position within the period is
    just above 0 and the stored sample is low, while [5 * 0.2 = 1.0], at
    which [1.0 % 0.2 = 0.19999999999999996] puts the position just below 1
    and the formula gives the high sample. *)
Lemma stored_segment_differs_on_multiples_of_tau :
  let d := draws grid_generator in
  let rederived :=
    rederive_on_multiples (_amplitude grid_segment) (_frequency grid_segment)
      (_offset grid_segment) (drawn_high_low_ratio d) (tau grid_segment)
      (_limit_margin grid_segment) (_current_episode_length grid_segment) 0 in
  _reset_reference grid_generator = (Returned, grid_segment) /\
  code_shift (_frequency grid_segment) (tau grid_segment) (drawn_phase d) = Some 0%Z /\
  time_grid (tau grid_segment) 7 !! 5%nat = Some 1.0000000000000002 /\
  of_Z 5 * tau grid_segment = 1 /\
  remainder 1 (1 / _frequency grid_segment) = 0.19999999999999996 /\
  _reference grid_segment !! 5%nat = Some (-1) /\
  rederived !! 5%nat = Some 1 /\
  _reference grid_segment <> rederived.
Proof.
  cbv zeta.
  split; [vm_compute; reflexivity |]. split; [vm_compute; reflexivity |].
  split; [vm_compute; reflexivity |]. split; [vm_compute; reflexivity |].
  split; [vm_compute; reflexivity |]. split; [vm_compute; reflexivity |].
  split; [vm_compute; reflexivity |].
  intros Heq.
  apply (f_equal (fun l : list float =>
                    match l !! 5%nat with Some v => v <? 0 | None => false end)) in Heq.
  vm_compute in Heq. discriminate Heq.
Qed.

(** The shift on doubles.  With frequency 1, [tau = 0.25] and phase 0.7 the
    code shifts by 2 samples where rounding gives 3.  With [tau = 0.01] and
    phase 0.29 the product [100.0 * 0.29 = 28.999999999999996] is truncated
    to 28, where the exact product is 29.  The order of the operations
    matters: with [tau = 0.1] and phase 0.3 the code shifts by
    [int(10.0 * 0.3) = 3] where [int(0.3 / 1 / 0.1) = 2], and with
    [tau = 0.0001] and phase 0.7 by 7000 where the quotient gives 6999. *)
Example shift_on_doubles :
  code_shift 1 0.25 0.7 = Some 2%Z /\ spec_shift 1 0.25 0.7 = Some 3%Z /\
  1 / 1 / 0.01 * 0.29 = 28.999999999999996 /\
  code_shift 1 0.01 0.29 = Some 28%Z /\
  code_shift 1 0.1 0.3 = Some 3%Z /\ int (0.3 / 1 / 0.1) = Some 2%Z /\
  code_shift 1 0.0001 0.7 = Some 7000%Z /\ int (0.7 / 1 / 0.0001) = Some 6999%Z.
Proof. repeat split; vm_compute; reflexivity. Qed.

(** Eleven samples 0.1 s apart at frequency 5, duty ratio 0.4, no shift:
    the last point of the grid is 1.0, where [1.0 % 0.2] is
    [0.19999999999999996] and the stored sample is high; on exact
    rationals the position within the period is 0 and the sample low. *)
Example last_sample_on_doubles :
  _reset_reference
    (set_modules (__init__ (Some (1, 1)) (5, 5) (Some (0, 0)) 11 [0; 0; 0; 0.4; 0])
       0.1 (-1, 1))
  = (Returned,
     assigned
       (set_modules (__init__ (Some (1, 1)) (5, 5) (Some (0, 0)) 11 [0; 0; 0; 0.4; 0])
          0.1 (-1, 1))
       1 5 0 []
       [-1; 1; -1; 1; -1; 1; -1; 1; -1; 1; 1]) /\
  StepReferenceGenerator.rederive 1 5 0 (4 # 10) (1 # 10) (-1, 1)%Q 11 0 !! 10%nat
  = Some (-1)%Q.
Proof. split; vm_compute; reflexivity. Qed.

(** A frequency and a step duration of 1e-200 are not zero, but
    [1 / 1e-200 / 1e-200] is infinite and [int] raises [OverflowError]; the
    three parameters are assigned by then, all five draws are consumed and
    the segment is the one of before. *)
Example overflowing_shift_raises :
  _reset_reference overflowing_generator
  = (Raised OverflowError, assigned overflowing_generator 1 1e-200 0 [] []).
Proof. vm_compute. reflexivity. Qed.

(** A step duration of zero raises [ZeroDivisionError]. *)
Example zero_step_duration_raises_on_doubles :
  fst (_reset_reference
         (set_modules (__init__ None (1, 10) None 4 [0.5; 0.2; 0.9; 0.4; 0.7]) 0 (-1, 1)))
  = Raised ZeroDivisionError.
Proof. vm_compute. reflexivity. Qed.

End StepReferenceGenerator64Facts.

(** ** StateActionProcessor *)

Module StateActionProcessorFacts.
Import StateActionProcessor.
Local Open Scope Q_scope.

(** *** The name-to-index mapping *)

Lemma state_positions_other (names : list string) (index : nat)
    (positions : gmap string nat) (key : string) :
  key ∉ names ->
  state_positions index names positions !! key = positions !! key.
Proof.
  revert index positions.
  induction names as [| name rest IH]; intros index positions Hnotin; [reflexivity |].
  apply not_elem_of_cons in Hnotin as [Hne Hrest]. simpl.
  rewrite IH by exact Hrest. now apply lookup_insert_ne.
Qed.

(** A name is sent to the index of its last occurrence. *)
Lemma state_positions_last (before after : list string) (key : string)
    (index : nat) (positions : gmap string nat) :
  key ∉ after ->
  state_positions index (before ++ key :: after) positions !! key
  = Some (index + length before)%nat.
Proof.
  intros Hlast. revert index positions.
  induction before as [| name rest IH]; intros index positions; simpl.
  - rewrite state_positions_other by exact Hlast.
    rewrite lookup_insert_eq. f_equal. lia.
  - rewrite IH. f_equal. lia.
Qed.

Lemma state_positions_last_occurrence (names : list string) (i : nat) (key : string) :
  names !! i = Some key -> key ∉ drop (S i) names ->
  state_positions 0 names ∅ !! key = Some i.
Proof.
  intros Hi Hlast.
  rewrite <- (take_drop_middle names i key Hi).
  rewrite state_positions_last by exact Hlast.
  rewrite length_take_le; [reflexivity |].
  apply lookup_lt_Some in Hi. lia.
Qed.

Lemma state_positions_distinct (names : list string) (i : nat) (key : string) :
  NoDup names -> names !! i = Some key ->
  state_positions 0 names ∅ !! key = Some i.
Proof.
  intros Hnodup Hi. apply state_positions_last_occurrence; [exact Hi |].
  rewrite <- (take_drop_middle names i key Hi) in Hnodup.
  apply NoDup_app in Hnodup as (_ & _ & Hafter).
  now apply NoDup_cons in Hafter as [Hnotin _].
Qed.

(** *** Runs *)

Lemma bind_call {A : Type} (c : Call) (k : Run A) :
  (call c;; k) = (c :: calls k, result k).
Proof. destruct k as [log r]. reflexivity. Qed.

Lemma bind_lift_Some {A B : Type} (a : A) (k : A -> Run B) :
  (x ← lift (Some a); k x) = k a.
Proof. unfold mbind, run_bind, bind, lift. now destruct (k a). Qed.

Lemma bind_lift_None {A B : Type} (k : A -> Run B) :
  (x ← lift None; k x) = raise.
Proof. reflexivity. Qed.

(** A delegated call: the layer's calls are kept, and its result is put
    back into the stage. *)
Lemma bind_ret_result {A B : Type} (m : Run A) (f : A -> B) :
  (x ← m; ret (f x)) = (calls m, f <$> result m).
Proof.
  destruct m as [log [a |]]; unfold mbind, run_bind, bind, ret; simpl;
    [now rewrite app_nil_r | reflexivity].
Qed.

Section StageClaims.
Context {Inner RC : Type} `{Layer Inner} `{RandomComponent RC}.
Implicit Types (self : StateActionProcessor Inner RC) (inner : Inner).

Lemma __init___attached inner self :
  __init__ (Some inner) = Some self ->
  exists space names tau_,
    layer_action_space inner = Some space /\
    layer_state_names inner = Some (Some names) /\
    layer_tau inner = Some tau_ /\
    self = mkStateActionProcessor (Some inner) space None None None
             (Some names) (state_positions 0 names ∅) tau_
             random_component_init.
Proof.
  unfold __init__, set_physical_system. simpl.
  destruct (layer_action_space inner) as [space |]; [| discriminate].
  destruct (layer_state_names inner) as [[names |] |]; try discriminate.
  destruct (layer_tau inner) as [tau_ |]; [| discriminate].
  simpl. intros [= <-]. now exists space, names, tau_.
Qed.

Lemma constructed_stage_passes_through inner self :
  __init__ (Some inner) = Some self ->
  action_space self = layer_action_space inner /\
  state_space self = layer_state_space inner /\
  limits self = layer_limits inner /\
  nominal_state self = layer_nominal_state inner /\
  state_names self = layer_state_names inner.
Proof.
  intros Hinit.
  apply __init___attached in Hinit
    as (space & names & tau_ & Hspace & Hnames & _ & ->).
  unfold action_space, state_space, limits, nominal_state, state_names,
    inner_attribute. simpl.
  rewrite Hspace, Hnames. destruct space; repeat split.
Qed.

Lemma simulate_unfold (action : Action) self inner :
  _physical_system self = Some inner ->
  simulate action self
  = (inner_simulate_call action :: calls (layer_simulate action inner),
     (fun r => (fst r, with_physical_system (Some (snd r)) self))
       <$> result (layer_simulate action inner)).
Proof.
  intros Hinner. unfold simulate. rewrite Hinner, bind_lift_Some, bind_call.
  destruct (layer_simulate action inner) as [log [[state inner'] |]];
    unfold mbind, run_bind, bind, ret, calls, result; simpl;
    [now rewrite app_nil_r | reflexivity].
Qed.

(** C6.  With an inner layer attached, each of [action_space],
    [state_space], [limits], [nominal_state] and [state_names] is the
    stage's own value when that is set and the inner layer's value
    otherwise; a stage constructed around an inner layer and given no
    override shows the inner layer's five values. *)
Theorem properties_override_or_pass_through inner :
  (forall self,
      _physical_system self = Some inner ->
      action_space self
      = from_option (fun v => Some (Some v)) (layer_action_space inner)
          (_action_space self) /\
      state_space self
      = from_option (fun v => Some (Some v)) (layer_state_space inner)
          (_state_space self) /\
      limits self
      = from_option (fun v => Some (Some v)) (layer_limits inner) (_limits self) /\
      nominal_state self
      = from_option (fun v => Some (Some v)) (layer_nominal_state inner)
          (_nominal_state self) /\
      state_names self
      = from_option (fun v => Some (Some v)) (layer_state_names inner)
          (_state_names self)) /\
  (forall self,
      __init__ (Some inner) = Some self ->
      action_space self = layer_action_space inner /\
      state_space self = layer_state_space inner /\
      limits self = layer_limits inner /\
      nominal_state self = layer_nominal_state inner /\
      state_names self = layer_state_names inner).
Proof.
  split.
  - intros self Hinner.
    unfold action_space, state_space, limits, nominal_state, state_names,
      inner_attribute.
    rewrite Hinner.
    destruct (_action_space self), (_state_space self), (_limits self),
      (_nominal_state self), (_state_names self); repeat split.
  - intros self. apply constructed_stage_passes_through.
Qed.

(** C7, as the code has it.  [simulate(action)] makes no membership test:
    with an inner layer attached it hands [action] on unchanged and
    returns what the inner layer returns, whatever the stage's
    [action_space] is. *)
Theorem simulate_delegates_without_validation (action : Action) self inner :
  _physical_system self = Some inner ->
  simulate action self
  = (inner_simulate_call action :: calls (layer_simulate action inner),
     (fun r => (fst r, with_physical_system (Some (snd r)) self))
       <$> result (layer_simulate action inner)) /\
  (forall space : py Space,
      calls (simulate action (set_action_space space self))
      = calls (simulate action self) /\
      fst <$> result (simulate action (set_action_space space self))
      = fst <$> result (simulate action self)).
Proof.
  intros Hinner.
  split; [now apply simulate_unfold |].
  intros space.
  rewrite (simulate_unfold action self inner Hinner),
    (simulate_unfold action (set_action_space space self) inner Hinner).
  unfold calls, result. simpl. split; [reflexivity |].
  now destruct (layer_simulate action inner) as [log [[state inner'] |]].
Qed.

(** C8.  Every call of [reset()] starts with the call of
    [next_generator()]; when that returns, the reset of the inner layer
    follows, and the state the inner layer returns is the state
    returned. *)
Theorem reset_rotates_then_delegates self :
  (exists later, calls (reset self) = next_generator_call :: later) /\
  (next_generator (random_component self) = None ->
   reset self = ([next_generator_call], None)) /\
  (forall rc inner,
      next_generator (random_component self) = Some rc ->
      _physical_system self = Some inner ->
      calls (reset self)
      = next_generator_call :: inner_reset_call :: calls (layer_reset inner) /\
      result (reset self)
      = (fun r => (fst r,
                   with_physical_system (Some (snd r))
                     (with_random_component rc self)))
          <$> result (layer_reset inner)).
Proof.
  unfold reset. rewrite bind_call.
  split; [eexists; reflexivity |]. split.
  - intros ->. reflexivity.
  - intros rc inner Hrc Hinner. rewrite Hrc, bind_lift_Some. cbv zeta.
    change (_physical_system (with_random_component rc self))
      with (_physical_system self).
    rewrite Hinner, bind_lift_Some, bind_call.
    destruct (layer_reset inner) as [log [[state inner'] |]];
      unfold mbind, run_bind, bind, ret, calls, result; simpl;
      [now rewrite app_nil_r | split; reflexivity].
Qed.

Lemma seed_unfold (value : Seed) self :
  seed value self
  = match _physical_system self with
    | Some inner =>
        if layer_is_random_component inner then
          (inner_seed_call value :: calls (layer_seed value inner),
           (fun inner' => with_physical_system (Some inner') self)
             <$> result (layer_seed value inner))
        else ([], Some self)
    | None => ([], Some self)
    end.
Proof.
  unfold seed. destruct (_physical_system self) as [inner |]; [| reflexivity].
  destruct (layer_is_random_component inner); [| reflexivity].
  now rewrite bind_call, bind_ret_result.
Qed.

(** C9, as the code has it.  [seed(value)] calls the inner layer's [seed]
    exactly when an inner layer is attached and is a [RandomComponent],
    stores what that call leaves of the inner layer, and leaves every
    field of the stage itself, its own random state included, as it
    was. *)
Theorem seed_forwards_and_keeps_own_random_state (value : Seed) self :
  (calls (seed value self) <> [] <->
   exists inner, _physical_system self = Some inner /\
                 layer_is_random_component inner = true) /\
  (forall inner,
      _physical_system self = Some inner ->
      layer_is_random_component inner = true ->
      calls (seed value self)
      = inner_seed_call value :: calls (layer_seed value inner) /\
      _physical_system <$> result (seed value self)
      = Some <$> result (layer_seed value inner)) /\
  (forall self',
      result (seed value self) = Some self' ->
      random_component self' = random_component self /\
      with_physical_system (_physical_system self) self' = self).
Proof.
  rewrite seed_unfold.
  destruct self as [[inner |] a s l n names pos t rc]; simpl.
  - destruct (layer_is_random_component inner) eqn:Hrandom; simpl.
    + split; [| split].
      * split; [intros _; now exists inner | discriminate].
      * intros i [= <-] _. split; [reflexivity |].
        now destruct (result (layer_seed value inner)).
      * intros self' Hres.
        destruct (result (layer_seed value inner)); simpl in Hres; [| discriminate].
        injection Hres as <-. now split.
    + split; [| split].
      * split; [intros Hne; now contradiction Hne |].
        intros (i & [= <-] & Htrue). congruence.
      * intros i [= <-] Htrue. congruence.
      * intros self' [= <-]. now split.
  - split; [| split].
    + split; [intros Hne; now contradiction Hne |].
      intros (i & Hi & _). discriminate.
    + discriminate.
    + intros self' [= <-]. now split.
Qed.

End StageClaims.

(** *** Chains of any depth *)

Section ChainFacts.
Context {Leaf RC : Type} `{Layer Leaf} `{RandomComponent RC}.

(** A chain of stages without overrides shows the five values of the
    physical system, whatever its depth. *)
Lemma chain_passes_through (depth : nat) (physical_system : Leaf) (head : Chain depth) :
  wrap depth physical_system = Some head ->
  @layer_action_space _ (chain_layer depth) head = layer_action_space physical_system /\
  @layer_state_space _ (chain_layer depth) head = layer_state_space physical_system /\
  @layer_limits _ (chain_layer depth) head = layer_limits physical_system /\
  @layer_nominal_state _ (chain_layer depth) head
  = layer_nominal_state physical_system /\
  @layer_state_names _ (chain_layer depth) head = layer_state_names physical_system.
Proof.
  revert head. induction depth as [| below IH]; intros head Hwrap.
  - injection Hwrap as <-. repeat split.
  - simpl in Hwrap.
    destruct (wrap below physical_system) as [inner |] eqn:Hbelow; [| discriminate].
    simpl in Hwrap.
    destruct (IH inner eq_refl) as (Ha & Hs & Hl & Hn & Hnames).
    destruct (@constructed_stage_passes_through _ _ (chain_layer below) _ inner head Hwrap)
      as (Ha' & Hs' & Hl' & Hn' & Hnames').
    simpl. rewrite Ha', Hs', Hl', Hn', Hnames'. now repeat split.
Qed.

(** An action given to the head of a chain reaches the physical system
    unchanged, through one delegating call per stage, and the state the
    physical system returns comes back unchanged. *)
Lemma chain_simulate (depth : nat) (physical_system : Leaf) (head : Chain depth)
    (action : Action) :
  wrap depth physical_system = Some head ->
  calls (@layer_simulate _ (chain_layer depth) action head)
  = replicate depth (inner_simulate_call action)
    ++ calls (layer_simulate action physical_system) /\
  fst <$> result (@layer_simulate _ (chain_layer depth) action head)
  = fst <$> result (layer_simulate action physical_system).
Proof.
  revert head. induction depth as [| below IH]; intros head Hwrap.
  - injection Hwrap as <-. now split.
  - simpl in Hwrap.
    destruct (wrap below physical_system) as [inner |] eqn:Hbelow; [| discriminate].
    simpl in Hwrap.
    destruct (IH inner eq_refl) as [Hcalls Hresult].
    apply (@__init___attached _ _ (chain_layer below) _) in Hwrap
      as (space & names & tau_ & _ & _ & _ & ->).
    simpl.
    erewrite (@simulate_unfold _ _ (chain_layer below)) by reflexivity.
    unfold calls, result in *. simpl. rewrite Hcalls. split; [reflexivity |].
    rewrite <- Hresult.
    now destruct (@layer_simulate _ (chain_layer below) action inner)
      as [log [[state inner'] |]].
Qed.
End ChainFacts.

(** *** The claims on the example plant *)

Lemma properties_override_or_pass_through_example :
  __init__ (Some example_plant) = Some example_stage /\
  action_space example_stage = Some (Some (Box [-10] [10])) /\
  state_space example_stage = Some (Some (Box [-1; -1] [1; 1])) /\
  limits example_stage = Some (Some [100; 20]) /\
  nominal_state example_stage = Some (Some [50; 10]) /\
  state_names example_stage = Some (Some ["omega"; "i"]%string).
Proof.
  assert (Hinit : __init__ (Some example_plant) = Some example_stage)
    by (vm_compute; reflexivity).
  split; [exact Hinit |].
  exact (proj2 (properties_override_or_pass_through example_plant)
           example_stage Hinit).
Defined.

(** Two stages without overrides around the plant still show the plant's
    values. *)
Example chain_of_two_passes_through :
  action_space outer_stage = Some (Some (plant_action_space example_plant)) /\
  state_space outer_stage = Some (Some (plant_state_space example_plant)) /\
  limits outer_stage = Some (Some (plant_limits example_plant)) /\
  nominal_state outer_stage = Some (Some (plant_nominal_state example_plant)) /\
  state_names outer_stage = Some (Some (plant_state_names example_plant)).
Proof. repeat split; vm_compute; reflexivity. Qed.

Lemma simulate_delegates_without_validation_example :
  _physical_system narrowed_stage = Some example_plant /\
  simulate (Continuous [5]) narrowed_stage
  = (inner_simulate_call (Continuous [5])
       :: calls (layer_simulate (Continuous [5]) example_plant),
     (fun r => (fst r, with_physical_system (Some (snd r)) narrowed_stage))
       <$> result (layer_simulate (Continuous [5]) example_plant)).
Proof.
  assert (Hinner : _physical_system narrowed_stage = Some example_plant)
    by (vm_compute; reflexivity).
  split; [exact Hinner |].
  exact (proj1 (simulate_delegates_without_validation (Continuous [5])
                  narrowed_stage example_plant Hinner)).
Defined.

(** C7, as stated, fails: the stage declares the action space [-1, 1],
    the action 5 is outside it, and [simulate] neither tests nor rejects
    it; the call reaches the plant, which takes the step. *)
Lemma simulate_accepts_action_outside_action_space :
  let action := Continuous [5] in
  let run := simulate action narrowed_stage in
  action_space narrowed_stage = Some (Some (Box [-1] [1])) /\
  contains (Box [-1] [1]) action = false /\
  calls run = [inner_simulate_call action] /\
  is_Some (result run) /\
  plant_k <$> _physical_system narrowed_stage = Some 0%nat /\
  plant_k <$> _physical_system (stage_after narrowed_stage run) = Some 1%nat.
Proof.
  cbv zeta. repeat split; try (vm_compute; reflexivity).
  vm_compute. eexists. reflexivity.
Qed.

Lemma reset_rotates_then_delegates_example :
  calls (reset example_stage) = [next_generator_call; inner_reset_call] /\
  fst <$> result (reset example_stage) = Some [0; 0].
Proof.
  destruct (reset_rotates_then_delegates example_stage) as (_ & _ & Hdelegates).
  destruct (Hdelegates (mkSeedState None 1) example_plant) as [Hcalls Hresult].
  - vm_compute. reflexivity.
  - vm_compute. reflexivity.
  - split.
    + rewrite Hcalls. reflexivity.
    + rewrite Hresult. reflexivity.
Defined.

Lemma seed_forwards_and_keeps_own_random_state_example :
  calls (seed (Some 7%Z) example_stage) = [inner_seed_call (Some 7%Z)] /\
  calls (seed (Some 7%Z) plain_stage) = [] /\
  random_component (stage_after_seed example_stage (seed (Some 7%Z) example_stage))
  = random_component example_stage.
Proof.
  destruct (seed_forwards_and_keeps_own_random_state (Some 7%Z) example_stage)
    as (_ & Hforward & Hown).
  split; [| split].
  - destruct (Hforward example_plant) as [Hcalls _];
      [vm_compute; reflexivity | vm_compute; reflexivity |].
    rewrite Hcalls. reflexivity.
  - vm_compute. reflexivity.
  - apply (Hown (stage_after_seed example_stage (seed (Some 7%Z) example_stage))).
    vm_compute. reflexivity.
Defined.

(** C9, as stated, fails: [seed(7)] leaves the seed sequence of the stage
    unset, and two runs that each begin with [seed(7)] and a reset end
    with different random states of the stage, while the random state of
    the plant, to which the seed is forwarded, is the same in both. *)
Lemma seed_does_not_reseed_stage :
  let seeded := stage_after_seed example_stage (seed (Some 7%Z) example_stage) in
  let first_run := stage_after seeded (reset seeded) in
  let reseeded := stage_after_seed first_run (seed (Some 7%Z) first_run) in
  let second_run := stage_after reseeded (reset reseeded) in
  seed_sequence (random_component seeded) = None /\
  random_component first_run <> random_component second_run /\
  plant_random <$> _physical_system first_run
  = plant_random <$> _physical_system second_run /\
  plant_random <$> _physical_system first_run
  = Some (Some (mkSeedState (Some 7%Z) 1)).
Proof.
  cbv zeta. repeat split; try (vm_compute; reflexivity).
  vm_compute. discriminate.
Qed.

(** *** Further properties of the stage *)

Lemma state_positions_Some (names : list string) (index : nat)
    (positions : gmap string nat) (key : string) (i : nat) :
  state_positions index names positions !! key = Some i ->
  ((key ∉ names) /\ positions !! key = Some i) \/
  (exists j : nat, names !! j = Some key /\ i = (index + j)%nat).
Proof.
  revert index positions.
  induction names as [| name rest IH]; intros index positions Hlookup; simpl in *.
  - left. split; [apply not_elem_of_nil | exact Hlookup].
  - destruct (IH _ _ Hlookup) as [[Hnotin Hacc] | (j & Hj & ->)].
    + destruct (decide (name = key)) as [-> | Hne].
      * rewrite lookup_insert_eq in Hacc. injection Hacc as <-.
        right. exists 0%nat. split; [reflexivity | lia].
      * rewrite lookup_insert_ne in Hacc by exact Hne.
        left. split; [| exact Hacc].
        apply not_elem_of_cons. split; [congruence | exact Hnotin].
    + right. exists (S j). split; [exact Hj | lia].
Qed.

Section StageCoverage.
Context {Inner RC : Type} `{Layer Inner} `{RandomComponent RC}.
Implicit Types (self : StateActionProcessor Inner RC) (inner : Inner).

Lemma reset_unfold self (rc : RC) inner :
  next_generator (random_component self) = Some rc ->
  _physical_system self = Some inner ->
  reset self
  = (next_generator_call :: inner_reset_call :: calls (layer_reset inner),
     (fun r => (fst r,
                with_physical_system (Some (snd r)) (with_random_component rc self)))
       <$> result (layer_reset inner)).
Proof.
  intros Hrc Hinner. unfold reset.
  rewrite bind_call, Hrc, bind_lift_Some. cbv zeta.
  change (_physical_system (with_random_component rc self))
    with (_physical_system self).
  rewrite Hinner, bind_lift_Some, bind_call.
  destruct (layer_reset inner) as [log [[state inner'] |]];
    unfold mbind, run_bind, bind, ret, calls, result; simpl;
    [now rewrite app_nil_r | reflexivity].
Qed.

(** A stage constructed without a physical system: reading
    [action_space], [state_space], [limits] or [nominal_state] raises,
    while [state_names] is the empty tuple, [tau] is [None] and the
    name-to-index mapping is empty. *)
Theorem unattached_stage_reads :
  exists self : StateActionProcessor Inner RC,
    __init__ None = Some self /\
    physical_system self = None /\
    action_space self = None /\
    state_space self = None /\
    limits self = None /\
    nominal_state self = None /\
    state_names self = Some (Some []) /\
    tau self = Some None /\
    _state_positions self = ∅.
Proof.
  eexists. split; [reflexivity |]. repeat split.
Qed.

(** Without an inner layer [seed] returns and does nothing, [simulate]
    raises before any call, and [reset] raises after it has called
    [next_generator()]. *)
Theorem methods_without_inner_layer self (value : Seed) (action : Action) :
  _physical_system self = None ->
  seed value self = ([], Some self) /\
  simulate action self = ([], None) /\
  calls (reset self) = [next_generator_call] /\
  result (reset self) = None.
Proof.
  intros Hnone. unfold seed, simulate, reset. rewrite Hnone.
  split; [reflexivity |]. split; [reflexivity |].
  rewrite bind_call.
  destruct (next_generator (random_component self)) as [rc |]; [| now split].
  rewrite bind_lift_Some. cbv zeta.
  change (_physical_system (with_random_component rc self))
    with (_physical_system self).
  rewrite Hnone. now split.
Qed.

(** Constructing a stage around a layer is constructing it without one and
    attaching the layer afterwards. *)
Theorem constructor_attaches inner :
  __init__ (Some inner)
  = (__init__ None ≫= fun self : StateActionProcessor Inner RC =>
       fst <$> set_physical_system self inner).
Proof.
  unfold __init__, set_physical_system. simpl.
  destruct (layer_action_space inner) as [space |]; [| reflexivity].
  destruct (layer_state_names inner) as [[names |] |]; try reflexivity.
  all: destruct (layer_tau inner) as [tau_ |]; reflexivity.
Qed.

(** Attaching overwrites the stage's [action_space], so an override set
    through the setter before is lost, while [state_space], [limits],
    [nominal_state] and the random state are kept: a state space set
    before is still shown afterwards. *)
Theorem attach_overwrites_action_space_only self inner self' (returned : StateActionProcessor Inner RC) :
  set_physical_system self inner = Some (self', returned) ->
  (forall space : py Space,
      set_physical_system (set_action_space space self) inner = Some (self', self')) /\
  _action_space self' = default None (layer_action_space inner) /\
  _state_space self' = _state_space self /\
  _limits self' = _limits self /\
  _nominal_state self' = _nominal_state self /\
  random_component self' = random_component self /\
  (forall space : Space,
      _state_space self = Some space -> state_space self' = Some (Some space)).
Proof.
  unfold set_physical_system.
  destruct (layer_action_space inner) as [space |]; [| discriminate].
  destruct (layer_state_names inner) as [[names |] |]; try discriminate.
  destruct (layer_tau inner) as [tau_ |]; [| discriminate].
  simpl. intros [= <- _]. simpl. repeat split.
  intros s Hs. unfold state_space. simpl. now rewrite Hs.
Qed.


(** After attaching, the mapping and [state_names] agree, also when a
    name occurs twice: the index the mapping gives for a name holds that
    name, and the names with an index are exactly those of
    [state_names]; entries of an earlier attachment are gone. *)
Theorem state_positions_agree_with_state_names self inner self' (returned : StateActionProcessor Inner RC) :
  set_physical_system self inner = Some (self', returned) ->
  exists names : list string,
    _state_names self' = Some names /\
    (forall (key : string) (i : nat),
        _state_positions self' !! key = Some i -> names !! i = Some key) /\
    (forall key : string, key ∈ names <-> is_Some (_state_positions self' !! key)).
Proof.
  unfold set_physical_system.
  destruct (layer_action_space inner) as [space |]; [| discriminate].
  destruct (layer_state_names inner) as [[names |] |]; try discriminate.
  destruct (layer_tau inner) as [tau_ |]; [| discriminate].
  simpl. intros [= <- _]. simpl. exists names. split; [reflexivity |]. split.
  - intros key i Hlookup.
    destruct (state_positions_Some _ _ _ _ _ Hlookup) as [[_ Hempty] | (j & Hj & ->)].
    + rewrite lookup_empty in Hempty. discriminate.
    + exact Hj.
  - intros key. split.
    + intros Hin.
      destruct (list_elem_of_split_r names key Hin) as (before & after & -> & Hlast).
      rewrite state_positions_last by exact Hlast. eexists. reflexivity.
    + intros [i Hlookup].
      destruct (state_positions_Some _ _ _ _ _ Hlookup) as [[_ Hempty] | (j & Hj & _)].
      * rewrite lookup_empty in Hempty. discriminate.
      * eapply list_elem_of_lookup_2. exact Hj.
Qed.

(** A successful [simulate] changes nothing of the stage but the inner
    layer, and a successful [reset] nothing but the inner layer and the
    random state: overrides, copied attributes and the mapping stay. *)
Theorem simulate_and_reset_keep_own_fields self (state : State) self' :
  (forall action : Action,
      result (simulate action self) = Some (state, self') ->
      with_physical_system (_physical_system self) self' = self) /\
  (result (reset self) = Some (state, self') ->
   with_physical_system (_physical_system self)
     (with_random_component (random_component self) self') = self).
Proof.
  split.
  - intros action. destruct (_physical_system self) as [inner |] eqn:Hinner.
    + rewrite (simulate_unfold action self inner Hinner). unfold result. simpl.
      destruct (layer_simulate action inner) as [log [[st inner'] |]]; simpl;
        [| discriminate].
      intros [= _ <-]. destruct self. simpl in *. now subst.
    + unfold simulate. rewrite Hinner. discriminate.
  - destruct (next_generator (random_component self)) as [rc |] eqn:Hrc.
    + destruct (_physical_system self) as [inner |] eqn:Hinner.
      * rewrite (reset_unfold self rc inner Hrc Hinner). unfold result. simpl.
        destruct (layer_reset inner) as [log [[st inner'] |]]; simpl;
          [| discriminate].
        intros [= _ <-]. destruct self. simpl in *. now subst.
      * unfold reset. rewrite bind_call, Hrc, bind_lift_Some. cbv zeta.
        change (_physical_system (with_random_component rc self))
          with (_physical_system self).
        rewrite Hinner. discriminate.
    + unfold reset. rewrite bind_call, Hrc. discriminate.
Qed.
End StageCoverage.

(** *** Further properties of chains *)

Lemma string_append_assoc (a b c : string) :
  ((a ++ b) ++ c)%string = (a ++ (b ++ c))%string.
Proof.
  induction a as [| ch a IH]; [reflexivity |].
  change (String ch ((a ++ b) ++ c) = String ch (a ++ (b ++ c)))%string.
  now rewrite IH.
Qed.

Lemma string_append_nil_r (s : string) : (s ++ "")%string = s.
Proof.
  induction s as [| ch s IH]; [reflexivity |].
  change (String ch (s ++ "") = String ch s)%string. now rewrite IH.
Qed.

Lemma repeated_comm (n : nat) (s : string) :
  (repeated n s ++ s)%string = (s ++ repeated n s)%string.
Proof.
  induction n as [| n IH]; simpl.
  - change ("" ++ s)%string with s. symmetry. apply string_append_nil_r.
  - now rewrite string_append_assoc, IH.
Qed.

Section ChainCoverage.
Context {Leaf RC : Type} `{Layer Leaf} `{RandomComponent RC}.

Lemma wrap_S (below : nat) (physical_system : Leaf)
    (head : StateActionProcessor (Chain below) RC) :
  wrap (S below) physical_system = Some head ->
  exists inner : Chain below,
    wrap below physical_system = Some inner /\
    _physical_system head = Some inner /\
    random_component head = random_component_init.
Proof.
  simpl. destruct (wrap below physical_system) as [inner |]; [| discriminate].
  simpl. intros Hinit.
  apply (@__init___attached _ _ (chain_layer below) _) in Hinit
    as (space & names & tau_ & _ & _ & _ & ->).
  now exists inner.
Qed.

(** A reset of the head of a chain rotates the random generator of every
    stage, from the head inwards and each before the layer below is
    reset, then resets the physical system, whose state is returned. *)
Theorem chain_reset (depth : nat) (physical_system : Leaf) (head : Chain depth)
    (rotated : RC) :
  next_generator random_component_init = Some rotated ->
  wrap depth physical_system = Some head ->
  calls (@layer_reset _ (chain_layer depth) head)
  = concat (replicate depth [next_generator_call; inner_reset_call])
    ++ calls (layer_reset physical_system) /\
  fst <$> result (@layer_reset _ (chain_layer depth) head)
  = fst <$> result (layer_reset physical_system).
Proof.
  intros Hrotated. revert head.
  induction depth as [| below IH]; intros head Hwrap.
  - injection Hwrap as <-. now split.
  - destruct (wrap_S below physical_system head Hwrap) as (inner & Hbelow & Hinner & Hrc).
    destruct (IH inner Hbelow) as [Hcalls Hresult].
    rewrite <- Hrc in Hrotated. simpl.
    rewrite (@reset_unfold _ _ (chain_layer below) _ head rotated inner Hrotated Hinner).
    unfold calls, result in *. simpl. rewrite Hcalls. split; [reflexivity |].
    rewrite <- Hresult.
    now destruct (@layer_reset _ (chain_layer below) inner) as [log [[state inner'] |]].
Qed.

(** A seed given to the head of a chain of at least one stage is handed
    down from stage to stage; it reaches the physical system when that is
    a [RandomComponent] and stops at the innermost stage otherwise. *)
Theorem chain_seed_calls (below : nat) (physical_system : Leaf)
    (head : Chain (S below)) (value : Seed) :
  wrap (S below) physical_system = Some head ->
  calls (@layer_seed _ (chain_layer (S below)) value head)
  = if layer_is_random_component physical_system
    then replicate (S below) (inner_seed_call value)
         ++ calls (layer_seed value physical_system)
    else replicate below (inner_seed_call value).
Proof.
  revert head. induction below as [| below IH]; intros head Hwrap.
  - destruct (wrap_S 0 physical_system head Hwrap) as (inner & Hbelow & Hinner & _).
    injection Hbelow as <-.
    change (@layer_seed _ (chain_layer 1) value head)
      with (seed (H := chain_layer 0) value head).
    rewrite (@seed_unfold _ _ (chain_layer 0)), Hinner. simpl.
    now destruct (layer_is_random_component physical_system).
  - destruct (wrap_S (S below) physical_system head Hwrap)
      as (inner & Hbelow & Hinner & _).
    specialize (IH inner Hbelow).
    change (@layer_seed _ (chain_layer (S (S below))) value head)
      with (seed (H := chain_layer (S below)) value head).
    rewrite (@seed_unfold _ _ (chain_layer (S below))), Hinner.
    change (@layer_is_random_component _ (chain_layer (S below)) inner) with true.
    cbv iota. unfold calls at 1. cbv beta iota delta [fst]. rewrite IH.
    now destruct (layer_is_random_component physical_system).
Qed.

(** However deep the chain and whatever its state, a seed changes the
    random state of none of its stages. *)
Theorem chain_seed_keeps_stage_random_states (depth : nat) (head head' : Chain depth)
    (value : Seed) :
  result (@layer_seed _ (chain_layer depth) value head) = Some head' ->
  stage_random_states depth head' = stage_random_states depth head.
Proof.
  revert head head'. induction depth as [| below IH]; intros head head' Hseed.
  - reflexivity.
  - change (@layer_seed _ (chain_layer (S below)) value head)
      with (seed (H := chain_layer below) value head) in Hseed.
    rewrite (@seed_unfold _ _ (chain_layer below)) in Hseed. revert Hseed.
    simpl stage_random_states.
    destruct (@_physical_system (Chain below) RC head) as [inner |] eqn:Hinner.
    + destruct (@layer_is_random_component (Chain below) (chain_layer below) inner).
      * unfold result at 1. cbv beta iota delta [snd].
        destruct (result (@layer_seed (Chain below) (chain_layer below) value inner))
          as [inner' |] eqn:Hinner'; [| discriminate].
        intros [= <-]. simpl. f_equal. now apply IH.
      * intros [= <-]. now rewrite Hinner.
    + intros [= <-]. now rewrite Hinner.
Qed.

(** [str] of the head of a chain opens one bracket with the class name per
    stage, prints the physical system and closes the brackets. *)
Theorem chain_str_nests (leaf_str : Leaf -> string) (depth : nat)
    (physical_system : Leaf) (head : Chain depth) :
  wrap depth physical_system = Some head ->
  chain_str leaf_str depth head
  = (repeated depth "<StateActionProcessor"
       ++ leaf_str physical_system
       ++ repeated depth ">")%string.
Proof.
  revert head. induction depth as [| below IH]; intros head Hwrap.
  - injection Hwrap as <-. simpl. symmetry. apply string_append_nil_r.
  - destruct (wrap_S below physical_system head Hwrap) as (inner & Hbelow & Hinner & _).
    simpl chain_str. unfold __str__, StateActionProcessor.physical_system.
    rewrite Hinner, (IH inner Hbelow). simpl repeated.
    generalize (leaf_str physical_system) as body.
    pose proof (repeated_comm below ">") as Hcomm. revert Hcomm.
    generalize (repeated below ">") as closing.
    generalize (repeated below "<StateActionProcessor") as opening.
    intros opening closing Hcomm body.
    rewrite !string_append_assoc, Hcomm. reflexivity.
Qed.
End ChainCoverage.

(** *** The further properties on the example plant *)

Lemma methods_without_inner_layer_example :
  seed (Some 7%Z) unattached_stage = ([], Some unattached_stage) /\
  simulate (Continuous [5]) unattached_stage = ([], None) /\
  calls (reset unattached_stage) = [next_generator_call] /\
  result (reset unattached_stage) = None.
Proof.
  apply (methods_without_inner_layer unattached_stage (Some 7%Z) (Continuous [5])).
  reflexivity.
Defined.

Lemma attach_overwrites_action_space_only_example :
  set_physical_system narrowed_stage plain_plant
  = Some (reattached_stage, reattached_stage) /\
  _action_space narrowed_stage = Some (Box [-1] [1]) /\
  _action_space reattached_stage = Some (Box [-10] [10]) /\
  random_component reattached_stage = random_component narrowed_stage.
Proof.
  assert (Hattach : set_physical_system narrowed_stage plain_plant
                    = Some (reattached_stage, reattached_stage))
    by (vm_compute; reflexivity).
  destruct (attach_overwrites_action_space_only narrowed_stage plain_plant
              reattached_stage reattached_stage Hattach)
    as (_ & Hspace & _ & _ & _ & Hrandom & _).
  split; [exact Hattach |]. split; [reflexivity |].
  split; [exact Hspace | exact Hrandom].
Defined.


Lemma state_positions_agree_with_state_names_example :
  exists names : list string,
    _state_names reattached_stage = Some names /\
    (forall (key : string) (i : nat),
        _state_positions reattached_stage !! key = Some i -> names !! i = Some key) /\
    (forall key : string,
        key ∈ names <-> is_Some (_state_positions reattached_stage !! key)).
Proof.
  apply (state_positions_agree_with_state_names narrowed_stage plain_plant
           reattached_stage reattached_stage).
  vm_compute. reflexivity.
Defined.

Lemma simulate_and_reset_keep_own_fields_example :
  with_physical_system (_physical_system example_stage) stepped_stage = example_stage.
Proof.
  apply (proj1 (simulate_and_reset_keep_own_fields example_stage [5 # 10; 5 # 10]
                  stepped_stage) (Continuous [5])).
  vm_compute. reflexivity.
Defined.

Lemma chain_passes_through_example :
  @wrap Plant SeedState _ _ 2 example_plant = Some outer_stage /\
  @layer_action_space _ (chain_layer 2) outer_stage = Some (Some (Box [-10] [10])) /\
  @layer_state_names _ (chain_layer 2) outer_stage
  = Some (Some ["omega"; "i"]%string).
Proof.
  assert (Hwrap : @wrap Plant SeedState _ _ 2 example_plant = Some outer_stage)
    by (vm_compute; reflexivity).
  destruct (chain_passes_through 2 example_plant outer_stage Hwrap)
    as (Hspace & _ & _ & _ & Hnames).
  split; [exact Hwrap |]. split; [exact Hspace | exact Hnames].
Defined.

Lemma chain_simulate_example :
  calls (@layer_simulate _ (chain_layer 2) (Continuous [5]) outer_stage)
  = [inner_simulate_call (Continuous [5]); inner_simulate_call (Continuous [5])] /\
  fst <$> result (@layer_simulate _ (chain_layer 2) (Continuous [5]) outer_stage)
  = fst <$> result (layer_simulate (Continuous [5]) example_plant).
Proof.
  assert (Hwrap : @wrap Plant SeedState _ _ 2 example_plant = Some outer_stage)
    by (vm_compute; reflexivity).
  destruct (chain_simulate 2 example_plant outer_stage (Continuous [5]) Hwrap)
    as [Hcalls Hresult].
  split; [rewrite Hcalls; reflexivity | exact Hresult].
Defined.

Lemma chain_reset_example :
  calls (@layer_reset _ (chain_layer 2) outer_stage)
  = [next_generator_call; inner_reset_call; next_generator_call; inner_reset_call] /\
  fst <$> result (@layer_reset _ (chain_layer 2) outer_stage)
  = fst <$> result (layer_reset example_plant).
Proof.
  assert (Hwrap : @wrap Plant SeedState _ _ 2 example_plant = Some outer_stage)
    by (vm_compute; reflexivity).
  assert (Hrotated : next_generator (random_component_init (RC := SeedState))
                     = Some (mkSeedState None 1)) by reflexivity.
  destruct (chain_reset 2 example_plant outer_stage (mkSeedState None 1)
              Hrotated Hwrap) as [Hcalls Hresult].
  split; [rewrite Hcalls; reflexivity | exact Hresult].
Defined.

Lemma chain_seed_calls_example :
  calls (@layer_seed _ (chain_layer 2) (Some 7%Z) outer_stage)
  = [inner_seed_call (Some 7%Z); inner_seed_call (Some 7%Z)].
Proof.
  assert (Hwrap : @wrap Plant SeedState _ _ 2 example_plant = Some outer_stage)
    by (vm_compute; reflexivity).
  rewrite (chain_seed_calls 1 example_plant outer_stage (Some 7%Z) Hwrap).
  reflexivity.
Defined.

Lemma chain_seed_keeps_stage_random_states_example :
  stage_random_states 2
    (stage_after_seed outer_stage (@layer_seed _ (chain_layer 2) (Some 7%Z) outer_stage))
  = stage_random_states 2 outer_stage.
Proof.
  apply (chain_seed_keeps_stage_random_states 2 outer_stage _ (Some 7%Z)).
  vm_compute. reflexivity.
Defined.

Lemma chain_str_nests_example :
  chain_str plant_str 2 outer_stage
  = "<StateActionProcessor<StateActionProcessorPlant>>"%string.
Proof.
  apply (chain_str_nests plant_str 2 example_plant outer_stage).
  vm_compute. reflexivity.
Defined.

(** A stage without a physical system prints [None] as its inner layer. *)
Example unattached_stage_str :
  __repr__ plant_str unattached_stage = "<StateActionProcessorNone>"%string.
Proof. reflexivity. Qed.

End StateActionProcessorFacts.

(** ** StateActionProcessor: attributes as shared objects *)

Module SharedAttributesFacts.
Import SharedAttributes.
Local Open Scope Q_scope.

Section Attach.
Context {Inner RC : Type} `{Attributes Inner}.
Implicit Types (self : StateActionProcessor Inner RC) (physical_system : Inner).
Implicit Types (store : gmap ref Object).

(** Whether the call returns depends on the argument and the store, not on
    the stage. *)
Lemma set_physical_system_returns_iff store self physical_system :
  is_Some (snd (set_physical_system store self physical_system))
  <-> attachable store physical_system.
Proof.
  unfold set_physical_system, attachable.
  destruct (attribute_action_space physical_system) as [space_ref |]; simpl.
  2: { split; [intros [? [=]] | intros ([? [=]] & _)]. }
  destruct (attribute_state_names physical_system) as [[names_ref |] |]; simpl.
  2: { split; [intros [? [=]] | intros (_ & (? & ? & [=] & _) & _)]. }
  2: { split; [intros [? [=]] | intros (_ & (? & ? & [=] & _) & _)]. }
  destruct (names_at store names_ref) as [names |] eqn:Hnames; simpl.
  2: { split; [intros [? [=]] |].
       intros (_ & (r & names & [= <-] & Hat) & _). congruence. }
  destruct (attribute_tau physical_system) as [tau_ |]; simpl.
  2: { split; [intros [? [=]] | intros (_ & _ & [? [=]])]. }
  split; [intros _ | intros _; eexists; reflexivity].
  split; [eexists; reflexivity |].
  split; [| eexists; reflexivity].
  exists names_ref, names. now split.
Qed.

(** The stage a returning call leaves, field by field. *)
Lemma set_physical_system_attached store self physical_system
    (space_ref : option ref) (names_ref : ref) (names : list string) (tau_ : option Q) :
  attribute_action_space physical_system = Some space_ref ->
  attribute_state_names physical_system = Some (Some names_ref) ->
  names_at store names_ref = Some names ->
  attribute_tau physical_system = Some tau_ ->
  let self' :=
    mkStateActionProcessor (Some physical_system) space_ref (_state_space self)
      (_limits self) (_nominal_state self) (Some names_ref)
      (StateActionProcessor.state_positions 0 names ∅) tau_ (random_component self) in
  set_physical_system store self physical_system = (self', Some self').
Proof.
  intros Hspace Hnames Hat Htau. unfold set_physical_system.
  rewrite Hspace, Hnames. simpl. rewrite Hat, Htau. reflexivity.
Qed.

(** The first assignment is made whatever follows. *)
Lemma set_physical_system_replaces_inner store self physical_system :
  _physical_system (fst (set_physical_system store self physical_system))
  = Some physical_system.
Proof.
  unfold set_physical_system.
  destruct (attribute_action_space physical_system) as [space_ref |]; [| reflexivity].
  destruct (attribute_state_names physical_system) as [state_names_ |]; [| reflexivity].
  simpl. destruct (state_names_ ≫= names_at store) as [names |]; [| reflexivity].
  destruct (attribute_tau physical_system) as [tau_ |]; reflexivity.
Qed.

End Attach.

(** *** The claim on the example store *)



End SharedAttributesFacts.
